(** * The remote generation job orchestrator of middleware/suno_client.py

    A shallow embedding of [_slugify], [_ensure_api_key], [_create_suno_task],
    [_poll_suno_task], [_download_audio] and [generate_music_from_prompt_en],
    and the properties the specification states about them; then the
    settings of config.py that the module reads ([_load_env_file],
    [_load_config], [ensure_configured] and the getters), and further
    properties of both.

    Python values are modelled as the interpreter has them: [str] as a list
    of Unicode code points, [int] as [Z], the result of [resp.json()] as a
    tree of [json] values, f-strings as the list of their pieces.  The
    outside world (clock, network, disk, console) is an explicit state that
    every call threads, with the network and the disk as oracles. *)

From Stdlib Require Import ZArith NArith List String Ascii Bool Lia Floats.
From stdpp Require Import base gmap.
From Equations Require Import Equations.
Import ListNotations.

Set Warnings "-register-all".
#[local] Open Scope Z_scope.

(** ** Python strings *)

(** A Python [str] is a sequence of code points. *)
Abbreviation pystr := (list N).

(** An ASCII literal of the source, as a [str]. *)
Definition lit (s : string) : pystr :=
  map N_of_ascii (list_ascii_of_string s).

Module Str.

(** [str.isspace] on one code point: the ASCII table of CPython
    ([_Py_ascii_whitespace]) and the Unicode white-space code points. *)
Definition isspace (c : N) : bool :=
  ((9 <=? c) && (c <=? 13) || (28 <=? c) && (c <=? 32)
   || (c =? 133) || (c =? 160) || (c =? 5760)
   || (8192 <=? c) && (c <=? 8202)
   || (c =? 8232) || (c =? 8233) || (c =? 8239) || (c =? 8287)
   || (c =? 12288))%N.

Fixpoint drop_while (p : N -> bool) (s : pystr) : pystr :=
  match s with
  | [] => []
  | c :: s' => if p c then drop_while p s' else s
  end.

Definition lstrip (p : N -> bool) (s : pystr) : pystr := drop_while p s.
Definition rstrip (p : N -> bool) (s : pystr) : pystr :=
  rev (drop_while p (rev s)).

(** [s.strip()] and [s.strip(chars)]: [p] says which code points go. *)
Definition strip (p : N -> bool) (s : pystr) : pystr := rstrip p (lstrip p s).

Definition one_of (chars : pystr) (c : N) : bool := existsb (N.eqb c) chars.

(** [s.rsplit(sep, 1)[0]] for a one-character [sep]: what stands before
    the last [sep], the whole of [s] when it has none. *)
Fixpoint rsplit1_head (sep : N) (s : pystr) : pystr :=
  match s with
  | [] => []
  | c :: s' =>
      if existsb (N.eqb sep) s' then c :: rsplit1_head sep s'
      else if (c =? sep)%N then [] else s
  end.

End Str.

(** ** Regular expression [[^\w\-]+] *)

Module Re.
Section word.

(** [str.isalnum] above ASCII is the Unicode character database, which is
    not part of the repository: it is a parameter. *)
Variable uni_isalnum : N -> bool.

Definition ascii_isalnum (c : N) : bool :=
  ((48 <=? c) && (c <=? 57) || (65 <=? c) && (c <=? 90)
   || (97 <=? c) && (c <=? 122))%N.

Definition isalnum (c : N) : bool :=
  if (c <? 128)%N then ascii_isalnum c else uni_isalnum c.

(** [\w] on a [str] pattern: alphanumeric or underscore. *)
Definition is_word (c : N) : bool := isalnum c || (c =? 95)%N.

(** The class [[^\w\-]]. *)
Definition not_word_or_hyphen (c : N) : bool :=
  negb (is_word c || (c =? 45)%N).

End word.

(** [re.sub(cls+, repl, text)] for a character class [cls]: scanning from
    the left, the longest non-empty stretch of class characters is one
    match, replaced by [repl]; other characters are copied. *)
Equations? sub_plus (cls : N -> bool) (repl text : pystr) : pystr
  by wf (length text) lt :=
  sub_plus cls repl [] := [];
  sub_plus cls repl (c :: t) with cls c := {
    | true := repl ++ sub_plus cls repl (Str.drop_while cls t);
    | false := c :: sub_plus cls repl t }.
Proof.
  clear. induction t as [|d t IH]; simpl; [lia|].
  destruct (cls d); simpl in *; lia.
Qed.

End Re.

(** ** [_slugify] *)

Section slugify.

Variable uni_isalnum : N -> bool.

Definition fallback_name : pystr := lit "hakimi_track".

Definition _slugify (text : pystr) : pystr :=
  let text := Str.strip Str.isspace text in
  match text with
  | [] => fallback_name
  | _ =>
      let slug := Re.sub_plus (Re.not_word_or_hyphen uni_isalnum) (lit "_") text in
      let slug := Str.strip (Str.one_of (lit "_")) slug in
      match slug with
      | [] => fallback_name
      | _ => slug
      end
  end.

(** The characters a slug is made of: word characters and hyphens. *)
Definition slug_char (c : N) : bool :=
  negb (Re.not_word_or_hyphen uni_isalnum c).

End slugify.

(** The slug as the specification words it: every maximal run of
    characters outside alphanumerics, underscore and hyphen becomes a single
    underscore, leading and trailing underscores are trimmed, and an empty
    result is the fixed default name. *)
Module SlugSpec.

(** The maximal runs of [t]: consecutive characters on the same side of
    [bad], each run tagged with its side. *)
Fixpoint runs (bad : N -> bool) (t : pystr) : list (bool * pystr) :=
  match t with
  | [] => []
  | c :: t' =>
      match runs bad t' with
      | (b, r) :: rest =>
          if Bool.eqb b (bad c) then (b, c :: r) :: rest
          else (bad c, [c]) :: (b, r) :: rest
      | [] => [(bad c, [c])]
      end
  end.

Definition replace_runs (bad : N -> bool) (repl t : pystr) : pystr :=
  concat (map (fun r : bool * pystr => if fst r then repl else snd r)
              (runs bad t)).

Definition spec_slug (uni_isalnum : N -> bool) (title : pystr) : pystr :=
  let s := replace_runs (Re.not_word_or_hyphen uni_isalnum) (lit "_") title in
  match Str.strip (Str.one_of (lit "_")) s with
  | [] => fallback_name
  | slug => slug
  end.

End SlugSpec.

(** ** JSON values, as [resp.json()] builds them *)

Inductive json :=
| JNull                              (* None *)
| JBool (b : bool)
| JInt (z : Z)
| JFloat (f : float)
| JStr (s : pystr)
| JArr (l : list json)
| JObj (o : list (pystr * json)).    (* a dict, items in insertion order *)

Abbreviation dict := (list (pystr * json)).

Module Py.

Fixpoint str_eqb (s t : pystr) : bool :=
  match s, t with
  | [], [] => true
  | c :: s', d :: t' => (c =? d)%N && str_eqb s' t'
  | _, _ => false
  end.

Fixpoint lookup (k : pystr) (d : dict) : option json :=
  match d with
  | [] => None
  | (k', v) :: d' => if str_eqb k k' then Some v else lookup k d'
  end.

(** [d.get(k)]: [None] when the key is missing. *)
Definition get (k : string) (d : dict) : json :=
  match lookup (lit k) d with Some v => v | None => JNull end.

(** [k in d] *)
Definition has_key (k : string) (d : dict) : bool :=
  match lookup (lit k) d with Some _ => true | None => false end.

(** [bool(v)] *)
Definition truthy (v : json) : bool :=
  match v with
  | JNull => false
  | JBool b => b
  | JInt z => negb (z =? 0)
  | JFloat f => negb (PrimFloat.eqb f 0%float)
  | JStr s => match s with [] => false | _ => true end
  | JArr l => match l with [] => false | _ => true end
  | JObj o => match o with [] => false | _ => true end
  end.

(** A float and an int are equal when they are the same number. *)
Definition float_eq_Z (f : float) (n : Z) : bool :=
  match Prim2SF f with
  | S754_zero _ => n =? 0
  | S754_finite s m e =>
      let v := if s then Z.neg m else Z.pos m in
      if 0 <=? e then v * 2 ^ e =? n else v =? n * 2 ^ (- e)
  | _ => false
  end.

(** [v == n] for an int literal [n] *)
Definition eq_int (v : json) (n : Z) : bool :=
  match v with
  | JInt z => z =? n
  | JBool b => (if b then 1 else 0) =? n
  | JFloat f => float_eq_Z f n
  | _ => false
  end.

(** [v == s] for a str literal [s] *)
Definition eq_str (v : json) (s : string) : bool :=
  match v with
  | JStr t => str_eqb t (lit s)
  | _ => false
  end.

End Py.

(** ** Formatted strings, exceptions, requests *)

(** What [requests] raises: the subclasses of
    [requests.exceptions.RequestException] a call can end in. *)
Inductive request_exception :=
| ConnectionError
| ReadTimeout
| TooManyRedirects
| InvalidURL
| HTTPError (status_code : Z)        (* from raise_for_status *)
| JSONDecodeError.                   (* from resp.json() *)

(** Exceptions that are not the module's own. *)
Inductive foreign_exn :=
| RequestException (e : request_exception)
| AttributeError
| TypeError
| KeyError
| IndexError
| ValueError
| OSError.

(** A file under the module's output directory. *)
Inductive path := OUTPUT_DIR_slash (filename : pystr).

(** An f-string, or the arguments of a [print]: literal text of the source
    and formatted values, in order. *)
Inductive piece :=
| Text (s : string)
| FInt (z : Z)
| FStr (s : pystr)
| FVal (v : json)
| FPath (p : path)
| FExn (e : foreign_exn).

Abbreviation fstring := (list piece).

(** [class SunoClientError(Exception): pass]: the only payload is the
    message. *)
Inductive exn :=
| SunoClientError (msg : fstring)
| Foreign (e : foreign_exn).

(** [str(e)] *)
Definition exn_str (e : exn) : fstring :=
  match e with
  | SunoClientError msg => msg
  | Foreign f => [FExn f]
  end.

Inductive http_method := GET | POST.

Record request := {
  req_method : http_method;
  req_url : fstring;
  req_headers : list (string * fstring);
  req_json : option json;
  req_timeout : Z;
}.

Record response := {
  status_code : Z;
  text : pystr;
  (** what [resp.json()] returns; [None] when the body does not parse *)
  json_body : option json;
  content : list Byte.byte;
}.

(** ** The world *)

Inductive event :=
| EvClock (ms : Z)                   (* time.time() was read *)
| EvPrint (args : list fstring)
| EvRequest (r : request)
| EvSleep (seconds : Z)
| EvWriteFile (p : path).

(** The environment answers the n-th request with an exception of
    [requests] or a response, after some milliseconds, and says which files
    can be written. *)
Record env := {
  net : nat -> request -> (request_exception + response) * N;
  disk : path -> bool;
}.

Record world := {
  clock : Z;                         (* milliseconds *)
  sent : nat;                        (* requests issued so far *)
  trace : list event;                (* oldest first *)
  files : gmap pystr (list Byte.byte);  (* the output directory *)
}.

(** Module-level configuration, read once from [config]. *)
Record config := {
  API_KEY : pystr;
  BASE_URL : pystr;
}.

Inductive outcome (A : Type) :=
| Done (a : A)
| Raised (e : exn)
| OutOfFuel.
Arguments Done {A} a.
Arguments Raised {A} e.
Arguments OutOfFuel {A}.

Definition M (A : Type) : Type := world -> outcome A * world.

Definition ret {A} (a : A) : M A := fun w => (Done a, w).
Definition raise {A} (e : exn) : M A := fun w => (Raised e, w).
Definition out_of_fuel {A} : M A := fun w => (OutOfFuel, w).

Definition bind {A B} (m : M A) (k : A -> M B) : M B :=
  fun w =>
    match m w with
    | (Done a, w') => k a w'
    | (Raised e, w') => (Raised e, w')
    | (OutOfFuel, w') => (OutOfFuel, w')
    end.

Notation "x <- m ;; k" := (bind m (fun x => k))
  (at level 100, m at next level, right associativity).
Notation "m ;;; k" := (bind m (fun _ => k))
  (at level 100, right associativity).

(** [try: m except Exception as e: ...], with the exception as a value. *)
Definition try_ {A} (m : M A) : M (exn + A) :=
  fun w =>
    match m w with
    | (Done a, w') => (Done (inr a), w')
    | (Raised e, w') => (Done (inl e), w')
    | (OutOfFuel, w') => (OutOfFuel, w')
    end.

Definition log (e : event) (w : world) : world :=
  {| clock := clock w; sent := sent w; trace := trace w ++ [e]; files := files w |}.

Definition print (args : list fstring) : M unit :=
  fun w => (Done tt, log (EvPrint args) w).

Definition time_time : M Z :=
  fun w => (Done (clock w), log (EvClock (clock w)) w).

(** The world after [seconds] of sleep. *)
Definition slept (seconds : Z) (w : world) : world :=
  {| clock := clock w + seconds * 1000; sent := sent w;
     trace := trace w ++ [EvSleep seconds]; files := files w |}.

(** [time.sleep(seconds)] refuses a negative length. *)
Definition time_sleep (seconds : Z) : M unit :=
  fun w =>
    if seconds <? 0 then (Raised (Foreign ValueError), w)
    else (Done tt, slept seconds w).

(** The world after request [r] was answered, [ms] milliseconds later. *)
Definition answered (r : request) (ms : N) (w : world) : world :=
  {| clock := clock w + Z.of_N ms; sent := S (sent w);
     trace := trace w ++ [EvRequest r]; files := files w |}.

(** The world after [data] was written to [p]. *)
Definition wrote (p : path) (data : list Byte.byte) (w : world) : world :=
  let 'OUTPUT_DIR_slash name := p in
  {| clock := clock w; sent := sent w;
     trace := trace w ++ [EvWriteFile p];
     files := <[name := data]> (files w) |}.

Section orchestrator.

Variable E : env.
Variable cfg : config.
Variable uni_isalnum : N -> bool.

(** [requests.request]: the environment answers; the call takes time. *)
Definition requests_send (r : request) : M response :=
  fun w =>
    let '(answer, ms) := net E (sent w) r in
    match answer with
    | inl e => (Raised (Foreign (RequestException e)), answered r ms w)
    | inr resp => (Done resp, answered r ms w)
    end.

(** [resp.raise_for_status()]: [HTTPError] for a 4xx or 5xx status. *)
Definition raise_for_status (resp : response) : M unit :=
  if (400 <=? status_code resp) && (status_code resp <? 600)
  then raise (Foreign (RequestException (HTTPError (status_code resp))))
  else ret tt.

Definition resp_json (resp : response) : M json :=
  match json_body resp with
  | Some v => ret v
  | None => raise (Foreign (RequestException JSONDecodeError))
  end.

(** [with open(p, "wb") as f: f.write(data)] *)
Definition write_file (p : path) (data : list Byte.byte) : M unit :=
  fun w =>
    if disk E p then (Done tt, wrote p data w)
    else (Raised (Foreign OSError), w).

(** [v.get(k)]: only a dict has the method. *)
Definition method_get (v : json) (k : string) : M json :=
  match v with
  | JObj o => ret (Py.get k o)
  | _ => raise (Foreign AttributeError)
  end.

(** [v[0]] *)
Definition item0 (v : json) : M json :=
  match v with
  | JArr (x :: _) => ret x
  | JArr [] => raise (Foreign IndexError)
  | JStr (c :: _) => ret (JStr [c])
  | JStr [] => raise (Foreign IndexError)
  | JObj _ => raise (Foreign KeyError)
  | _ => raise (Foreign TypeError)
  end.

Definition missing_key_msg : fstring :=
  [Text "未配置 AI Music API Key，请先设置环境变量 AIMUSIC_API_KEY / AIMUSIC_API_TOKEN / AIMUSIC_KEY 之一。"].

Definition _ensure_api_key : M unit :=
  match API_KEY cfg with
  | [] => raise (SunoClientError missing_key_msg)
  | _ => ret tt
  end.

(** *** [_create_suno_task] *)

Definition default_tags : list pystr :=
  [lit "electronic"; lit "meme"; lit "fast"; lit "cute"].

Definition create_url : fstring :=
  [FStr (BASE_URL cfg); Text "/api/v1/suno/create"].

Definition create_headers : list (string * fstring) :=
  [("Authorization"%string, [Text "Bearer "; FStr (API_KEY cfg)]);
   ("Content-Type"%string, [Text "application/json"])].

Definition rejected_msg (data : json) : fstring :=
  [Text "创建 Suno 任务失败: "; FVal data].

Definition _create_suno_task (music_prompt_en title : pystr)
    (tags : option (list pystr)) (make_instrumental : bool) : M json :=
  _ensure_api_key ;;;
  let tags := match tags with None => default_tags | Some t => t end in
  let url := create_url in
  let headers := create_headers in
  let payload :=
    JObj [(lit "custom_mode", JBool false);
          (lit "gpt_description_prompt", JStr music_prompt_en);
          (lit "make_instrumental", JBool make_instrumental);
          (lit "mv", JStr (lit "chirp-v4"))] in
  print [[Text "[SunoClient] 创建 Suno 任务 ..."]] ;;;
  print [[Text "  gpt_description_prompt ="]; [FStr music_prompt_en]] ;;;
  resp <- requests_send {| req_method := POST; req_url := url;
                           req_headers := headers;
                           req_json := Some payload; req_timeout := 60 |} ;;
  print [[Text "  HTTP"]; [FInt (status_code resp)]; [FStr (text resp)]] ;;;
  raise_for_status resp ;;;
  data <- resp_json resp ;;
  message <- method_get data "message" ;;
  match data with
  | JObj o =>
      if negb (Py.eq_str message "success") || negb (Py.has_key "task_id" o)
      then raise (SunoClientError (rejected_msg data))
      else
        match Py.lookup (lit "task_id") o with
        | Some task_id =>
            print [[Text "[SunoClient] 任务创建成功，task_id = "; FVal task_id]] ;;;
            ret task_id
        | None => raise (Foreign KeyError)
        end
  | _ => raise (Foreign AttributeError)
  end.

(** *** [_poll_suno_task] *)

Definition poll_url (task_id : json) : fstring :=
  [FStr (BASE_URL cfg); Text "/api/v1/suno/task/"; FVal task_id].

Definition poll_headers : list (string * fstring) :=
  [("Authorization"%string, [Text "Bearer "; FStr (API_KEY cfg)])].

Definition poll_request (task_id : json) : request :=
  {| req_method := GET; req_url := poll_url task_id;
     req_headers := poll_headers; req_json := None; req_timeout := 60 |}.

Definition timeout_msg (max_wait : Z) (task_id : json) : fstring :=
  [Text "等待 Suno 任务超时（>"; FInt max_wait; Text "s），task_id=";
   FVal task_id].

Definition status_msg (resp : response) : fstring :=
  [Text "获取任务状态失败: HTTP "; FInt (status_code resp); Text ", body=";
   FStr (text resp)].

Definition not_json_msg (resp : response) : fstring :=
  [Text "任务状态返回非 JSON："; FStr (text resp)].

Definition job_failed_msg (clip : json) : fstring :=
  [Text "Suno 任务失败: "; FVal clip].

(** One pass through the body of [while True]: [Some clip] is
    [return clip], [None] is reaching [continue] or the end of the body. *)
Definition poll_iteration (task_id : json) (max_wait interval start : Z)
    (attempt : Z) : M (option dict) :=
  now <- time_time ;;
  let elapsed := (now - start) ÷ 1000 in
  if max_wait <? elapsed then raise (SunoClientError (timeout_msg max_wait task_id))
  else
    let attempt := attempt + 1 in
    print [[Text "[SunoClient] 第 "; FInt attempt;
            Text " 次查询任务状态（已等待 "; FInt elapsed; Text "s）..."]] ;;;
    r <- try_ (requests_send (poll_request task_id)) ;;
    match r with
    | inl (Foreign (RequestException e)) =>
        print [[Text "  ⚠️ 网络异常，忽略本次查询："];
               [FExn (RequestException e)]] ;;;
        time_sleep interval ;;;
        ret None
    | inl e => raise e
    | inr resp =>
        print [[Text "  HTTP"]; [FInt (status_code resp)]] ;;;
        if status_code resp =? 202 then
          print [[Text "  任务还在生成中 (202)，继续等待..."]] ;;;
          time_sleep interval ;;;
          ret None
        else if negb (status_code resp =? 200) then
          raise (SunoClientError (status_msg resp))
        else
          d <- try_ (resp_json resp) ;;
          match d with
          | inl _ => raise (SunoClientError (not_json_msg resp))
          | inr data =>
              print [[Text "  原始返回："]] ;;;
              print [[FVal data]] ;;;
              code <- method_get data "code" ;;
              result <- method_get data "data" ;;
              returned <-
                (if Py.eq_int code 200 && Py.truthy result then
                   clip <- item0 result ;;
                   state <- method_get clip "state" ;;
                   match clip with
                   | JObj c =>
                       if Py.eq_str state "succeeded" then
                         print [[Text "[SunoClient] 任务完成，clip_id ="];
                                [FVal (Py.get "clip_id" c)]] ;;;
                         ret (Some c)
                       else if Py.eq_str state "failed" then
                         raise (SunoClientError (job_failed_msg clip))
                       else
                         print [[Text "  当前 clip state="; FVal state;
                                 Text "，继续等待..."]] ;;;
                         ret None
                   | _ => raise (Foreign AttributeError)
                   end
                 else
                   print [[Text "  还没有成功结果，继续等待..."]] ;;;
                   ret None) ;;
              match returned with
              | Some c => ret (Some c)
              | None => time_sleep interval ;;; ret None
              end
          end
    end.

Fixpoint poll_loop (fuel : nat) (task_id : json) (max_wait interval start : Z)
    (attempt : Z) : M dict :=
  match fuel with
  | O => out_of_fuel
  | S fuel' =>
      r <- poll_iteration task_id max_wait interval start attempt ;;
      match r with
      | Some clip => ret clip
      | None => poll_loop fuel' task_id max_wait interval start (attempt + 1)
      end
  end.

Definition _poll_suno_task (fuel : nat) (task_id : json)
    (max_wait interval : Z) : M dict :=
  _ensure_api_key ;;;
  start <- time_time ;;
  let attempt := 0 in
  poll_loop fuel task_id max_wait interval start attempt.

(** *** [_download_audio] *)

Record generation_result := {
  audio_path : path;
  cover_path : option path;
  title : json;
  tags : json;
  duration : json;
  clip_id : json;
}.

Definition no_audio_msg (clip : dict) : fstring :=
  [Text "clip 中没有 audio_url 字段: "; FVal (JObj clip)].

Definition download_request (url : json) : request :=
  {| req_method := GET; req_url := [FVal url]; req_headers := [];
     req_json := None; req_timeout := 300 |}.

Definition _download_audio (clip : dict) (filename : pystr)
    : M generation_result :=
  let audio_url := Py.get "audio_url" clip in
  if negb (Py.truthy audio_url) then raise (SunoClientError (no_audio_msg clip))
  else
    let audio_filepath := OUTPUT_DIR_slash filename in
    print [[Text "[SunoClient] 下载音频: "; FVal audio_url]] ;;;
    resp <- requests_send (download_request audio_url) ;;
    raise_for_status resp ;;;
    write_file audio_filepath (content resp) ;;;
    print [[Text "[SunoClient] 音频已保存到: "; FPath audio_filepath]] ;;;
    let image_url := Py.get "image_url" clip in
    cover_filepath <-
      (if Py.truthy image_url then
         let cover_filename :=
           Str.rsplit1_head 46%N filename ++ lit "_cover.jpg" in
         let cover_filepath := OUTPUT_DIR_slash cover_filename in
         print [[Text "[SunoClient] 下载封面图片: "; FVal image_url]] ;;;
         r <- try_ (resp <- requests_send (download_request image_url) ;;
                    raise_for_status resp ;;;
                    write_file cover_filepath (content resp) ;;;
                    print [[Text "[SunoClient] 封面已保存到: ";
                            FPath cover_filepath]]) ;;
         match r with
         | inr _ => ret (Some cover_filepath)
         | inl e =>
             print [Text "⚠️ 下载封面失败: " :: exn_str e] ;;;
             ret None
         end
       else ret None) ;;
    let result :=
      {| audio_path := audio_filepath;
         cover_path := cover_filepath;
         title := Py.get "title" clip;
         tags := Py.get "tags" clip;
         duration := Py.get "duration" clip;
         clip_id := Py.get "clip_id" clip |} in
    print [[Text "
[SunoClient] === 生成信息 ==="]] ;;;
    print [[Text "  曲名: "; FVal (title result)]] ;;;
    print [[Text "  标签: "; FVal (tags result)]] ;;;
    print [[Text "  时长: "; FVal (duration result); Text "秒"]] ;;;
    print [[Text "  音频: "; FPath (audio_path result)]] ;;;
    print [[Text "  封面: ";
            match cover_path result with
            | Some p => FPath p
            | None => Text "无"
            end]] ;;;
    print [[Text "==================================================
"]] ;;;
    ret result.

(** *** [generate_music_from_prompt_en] *)

Definition generate_music_from_prompt_en (fuel : nat)
    (music_prompt_en title : pystr) (tags : option (list pystr))
    (make_instrumental : bool) (max_wait interval : Z)
    : M generation_result :=
  let safe_title := _slugify uni_isalnum title in
  let filename := safe_title ++ lit ".mp3" in
  task_id <- _create_suno_task music_prompt_en title tags make_instrumental ;;
  clip <- _poll_suno_task fuel task_id max_wait interval ;;
  result <- _download_audio clip filename ;;
  ret result.

End orchestrator.

(** ** The scenarios of the specification *)

Module Scenario.

Definition cfg0 : config :=
  {| API_KEY := lit "sk-test"; BASE_URL := lit "https://api.sunoapi.com" |}.

Definition w0 : world :=
  {| clock := 0; sent := 0; trace := []; files := ∅ |}.

Definition ascii_only : N -> bool := fun _ => false.

Definition resp_of (status : Z) (body : option json) : response :=
  {| status_code := status; text := []; json_body := body; content := [] |}.

Definition str (s : string) : json := JStr (lit s).

Definition created : response :=
  resp_of 200 (Some (JObj [(lit "message", str "success");
                           (lit "task_id", str "abc123")])).

Definition pending : response := resp_of 202 None.

Definition finished (clip : dict) : response :=
  resp_of 200 (Some (JObj [(lit "code", JInt 200);
                           (lit "data", JArr [JObj clip])])).

Definition clip_B : dict :=
  [(lit "state", str "succeeded"); (lit "audio_url", str "http://x/a.mp3");
   (lit "title", str "T"); (lit "duration", JInt 30);
   (lit "clip_id", str "c1")].

Definition clip_C : dict := [(lit "state", str "failed")].

Definition clip_E : dict :=
  (lit "image_url", str "http://unreachable.invalid/c.jpg") :: clip_B.

Definition audio : response :=
  {| status_code := 200; text := []; json_body := None;
     content := [Byte.x49; Byte.x44; Byte.x33] |}.

(** The environment that answers the n-th request with the n-th entry of
    [answers], each after [ms] milliseconds, and refuses a connection once
    the list is used up; every file can be written. *)
Definition env_of (answers : list (request_exception + response)) (ms : N)
    : env :=
  {| net := fun n _ => (nth n answers (inl ConnectionError), ms);
     disk := fun _ => true |}.

(** The environment of scenario D: every request is answered 202. *)
Definition env_pending (ms : nat -> N) : env :=
  {| net := fun n _ => (inr pending, ms n); disk := fun _ => true |}.

Definition default_title : pystr := lit "Hakimi Meme Track".

End Scenario.

(** ** Notions the properties are stated with *)


(** [elapsed] as the loop body computes it: whole seconds since [start]. *)
Definition elapsed_at (start : Z) (w : world) : Z := (clock w - start) ÷ 1000.





Definition is_request_exception (e : exn) : bool :=
  match e with Foreign (RequestException _) => true | _ => false end.

(** The shape of the time-out message, which no other message of the
    module has. *)
Definition is_timeout_message (e : exn) : bool :=
  match e with
  | SunoClientError [Text _; FInt _; Text _; FVal _] => true
  | _ => false
  end.






(** The submission request as the wire protocol of the specification has
    it: POST to the create endpoint, bearer token, and the four fields
    custom_mode, gpt_description_prompt, make_instrumental and mv. *)
Definition submission_request (cfg : config) (description : pystr)
    (instrumental : bool) : request :=
  {| req_method := POST;
     req_url := [FStr (BASE_URL cfg); Text "/api/v1/suno/create"];
     req_headers :=
       [("Authorization"%string, [Text "Bearer "; FStr (API_KEY cfg)]);
        ("Content-Type"%string, [Text "application/json"])];
     req_json :=
       Some (JObj [(lit "custom_mode", JBool false);
                   (lit "gpt_description_prompt", JStr description);
                   (lit "make_instrumental", JBool instrumental);
                   (lit "mv", JStr (lit "chirp-v4"))]);
     req_timeout := 60 |}.

(** The requests among the events of a trace, in order. *)
Definition requests_of (evs : list event) : list request :=
  flat_map (fun e => match e with EvRequest r => [r] | _ => [] end) evs.

(** [raise_for_status] lets the status through. *)
Definition status_passes (resp : response) : bool :=
  negb ((400 <=? status_code resp) && (status_code resp <? 600)).


(** The cover file [_download_audio] derives from the audio file name. *)
Definition cover_file (filename : pystr) : path :=
  OUTPUT_DIR_slash (Str.rsplit1_head 46%N filename ++ lit "_cover.jpg").

(** How [_download_audio] may end, started in [w] with request number
    [sent w] still to come. *)
Definition download_ends (E : env) (clip : dict) (filename : pystr)
    (w : world) (o : outcome generation_result) (w' : world) : Prop :=
  match o with
  | Done r =>
      Py.truthy (Py.get "audio_url" clip) = true
      /\ audio_path r = OUTPUT_DIR_slash filename
      /\ (cover_path r = None \/ cover_path r = Some (cover_file filename))
      /\ title r = Py.get "title" clip /\ tags r = Py.get "tags" clip
      /\ duration r = Py.get "duration" clip
      /\ clip_id r = Py.get "clip_id" clip
  | Raised (SunoClientError msg) =>
      Py.truthy (Py.get "audio_url" clip) = false
      /\ msg = no_audio_msg clip /\ w' = w
  | Raised (Foreign e) =>
      Py.truthy (Py.get "audio_url" clip) = true
      /\ (sent w < sent w')%nat
  | OutOfFuel => False
  end.

(** The fatal kinds of the specification's error taxonomy that the module
    raises itself, and the message each is told by. *)
Inductive fatal_kind :=
| ConfigurationError
| ServiceRejected
| ServiceError
| ProtocolError
| JobFailed
| PollTimeout
| MissingArtifact.

Definition kind_of_message (msg : fstring) : option fatal_kind :=
  match msg with
  | Text s :: _ =>
      if String.eqb s "未配置 AI Music API Key，请先设置环境变量 AIMUSIC_API_KEY / AIMUSIC_API_TOKEN / AIMUSIC_KEY 之一。"
      then Some ConfigurationError
      else if String.eqb s "创建 Suno 任务失败: " then Some ServiceRejected
      else if String.eqb s "获取任务状态失败: HTTP " then Some ServiceError
      else if String.eqb s "任务状态返回非 JSON：" then Some ProtocolError
      else if String.eqb s "Suno 任务失败: " then Some JobFailed
      else if String.eqb s "等待 Suno 任务超时（>" then Some PollTimeout
      else if String.eqb s "clip 中没有 audio_url 字段: " then Some MissingArtifact
      else None
  | _ => None
  end.


(** ** [config.py]: the [.env] file and the settings *)

Module PyStr.

(** [s.startswith(c)] and [s.endswith(c)] for a one-character [c]. *)
Definition startswith (c : N) (s : pystr) : bool :=
  match s with
  | d :: _ => (d =? c)%N
  | [] => false
  end.

Definition endswith (c : N) (s : pystr) : bool :=
  match last s with
  | Some d => (d =? c)%N
  | None => false
  end.

(** [c in s] *)
Definition contains (c : N) (s : pystr) : bool := existsb (N.eqb c) s.

(** [s.split(sep, 1)] as a pair, for a one-character [sep]: what stands
    before and after the first [sep]; [None] when [s] has no [sep] and the
    list has one element only. *)
Fixpoint split1 (sep : N) (s : pystr) : option (pystr * pystr) :=
  match s with
  | [] => None
  | c :: s' =>
      if (c =? sep)%N then Some ([], s')
      else match split1 sep s' with
           | Some (a, b) => Some (c :: a, b)
           | None => None
           end
  end.

(** [s[1:-1]] *)
Definition slice_1_m1 (s : pystr) : pystr := removelast (tl s).

(** [sep.join(l)] *)
Fixpoint join (sep : pystr) (l : list pystr) : pystr :=
  match l with
  | [] => []
  | [s] => s
  | s :: l' => s ++ sep ++ join sep l'
  end.

End PyStr.

Module Config.

(** [os.environ], the process environment. *)
Abbreviation environ := (gmap pystr pystr).

(** [os.environ[key] = value] on a POSIX system: [putenv] refuses an empty
    name and a name with [=], and neither string may hold a null
    character. *)
Definition illegal_name (key : pystr) : bool :=
  match key with
  | [] => true
  | _ => PyStr.contains 61 key || PyStr.contains 0 key
  end.

Definition setenv (key value : pystr) (env : environ)
    : foreign_exn + environ :=
  if illegal_name key || PyStr.contains 0 value then inl ValueError
  else inr (<[key := value]> env).

(** [os.getenv(name, default)] *)
Definition getenv (name default : string) (env : environ) : pystr :=
  match env !! lit name with
  | Some v => v
  | None => lit default
  end.

(** The body of the loop of [_load_env_file] up to the assignment: the key
    and the value a line sets, [None] for a line that is skipped. *)
Definition env_line (line : pystr) : option (pystr * pystr) :=
  let line := Str.strip Str.isspace line in
  if match line with [] => true | _ => false end || PyStr.startswith 35 line
  then None
  else if PyStr.contains 61 line then
    match PyStr.split1 61 line with
    | Some (key, value) =>
        let key := Str.strip Str.isspace key in
        let value := Str.strip Str.isspace value in
        let value :=
          if PyStr.startswith 34 value && PyStr.endswith 34 value
          then PyStr.slice_1_m1 value
          else if PyStr.startswith 39 value && PyStr.endswith 39 value
          then PyStr.slice_1_m1 value
          else value in
        Some (key, value)
    | None => None
    end
  else None.

(** [_load_env_file], on the lines the file yields: the exception that ended
    it, if any, and the environment it leaves. *)
Fixpoint _load_env_file (lines : list pystr) (env : environ)
    : option foreign_exn * environ :=
  match lines with
  | [] => (None, env)
  | line :: lines' =>
      match env_line line with
      | Some (key, value) =>
          match setenv key value env with
          | inr env' => _load_env_file lines' env'
          | inl e => (Some e, env)
          end
      | None => _load_env_file lines' env
      end
  end.

(** The attributes of the [Config] object. *)
Record t := {
  ZAI_API_KEY : pystr;
  SUNO_API_KEY : pystr;
  HF_TOKEN : pystr;
  AIMUSIC_BASE_URL : pystr;
  FFMPEG_PATH : pystr;
}.

(** [_load_config]: [env_file] holds the lines of [.env] when the file
    exists. *)
Definition _load_config (env_file : option (list pystr)) (env : environ)
    : (foreign_exn + t) * environ :=
  let '(raised, env) :=
    match env_file with
    | Some lines => _load_env_file lines env
    | None => (None, env)
    end in
  match raised with
  | Some e => (inl e, env)
  | None =>
      (inr {| ZAI_API_KEY := getenv "ZAI_API_KEY" "" env;
              SUNO_API_KEY := getenv "SUNO_API_KEY" "" env;
              HF_TOKEN := getenv "HF_TOKEN" "" env;
              AIMUSIC_BASE_URL :=
                getenv "AIMUSIC_BASE_URL" "https://api.sunoapi.com" env;
              FFMPEG_PATH := getenv "FFMPEG_PATH" "ffmpeg" env |}, env)
  end.

Definition get_zai_api_key (config : t) : pystr := ZAI_API_KEY config.

Definition get_suno_api_key (config : t) : pystr := SUNO_API_KEY config.

Definition get_hf_token (config : t) : option pystr :=
  match HF_TOKEN config with
  | [] => None
  | token => Some token
  end.

Definition get_aimusic_base_url (config : t) : pystr := AIMUSIC_BASE_URL config.

Definition get_ffmpeg_path (config : t) : pystr :=
  match FFMPEG_PATH config with
  | [] => lit "ffmpeg"
  | p => p
  end.

(** What [ensure_configured] does to the outside: console output, and the
    [.env] file written from the template. *)
Inductive effect :=
| Print (args : list fstring)
| WriteEnvFile (content : string).

Definition env_template : string :=
"# Hakimi Agent 配置文件
# 请填入你的 API 密钥（不要包含在 git 提交中）

# 智谱 AI API 密钥（必需）- 用于 LLM 提示词生成
ZAI_API_KEY=your_zhipu_ai_api_key_here

# Suno API 密钥（必需）- 用于音乐生成
SUNO_API_KEY=your_suno_api_key_here

# Suno API 基础 URL（可选，默认为官方地址）
AIMUSIC_BASE_URL=https://api.sunoapi.com

# Hugging Face Token（可选）- 仅在使用 HF MusicGen 时需要
# HF_TOKEN=your_huggingface_token_here

# ffmpeg binary path (optional). Set to directory or executable path if ffmpeg isn't on PATH
FFMPEG_PATH=ffmpeg
".

(** [_create_env_file]: [writable] says whether [.env] can be opened for
    writing. *)
Definition _create_env_file (writable : bool)
    : (foreign_exn + unit) * list effect :=
  if writable then (inr tt, [WriteEnvFile env_template])
  else (inl OSError, []).

(** [ensure_configured]: [env_file_exists] is [self.env_file.exists()] at
    the time of the call, [resolved] is [self.env_file.resolve()]. *)
Definition ensure_configured (config : t) (env_file_exists writable : bool)
    (resolved : pystr) : (foreign_exn + bool) * list effect :=
  if negb env_file_exists then
    let out := [Print [[Text "
[!] 配置文件 .env 不存在"]];
                Print [[Text "[*] 正在创建配置文件模板..."]]] in
    match _create_env_file writable with
    | (inl e, effects) => (inl e, out ++ effects)
    | (inr _, effects) =>
        (inr false,
         out ++ effects ++
         [Print [[Text "
[OK] 已创建配置文件："; FStr resolved]];
          Print [[Text "
请编辑 .env 文件，填入你的 API 密钥，然后重新运行程序。"]];
          Print [[Text "
需要配置的密钥："]];
          Print [[Text "  - ZAI_API_KEY: 智谱 AI API 密钥（必需）"]];
          Print [[Text "  - SUNO_API_KEY: Suno API 密钥（必需）"]];
          Print [[Text "  - HF_TOKEN: Hugging Face Token（可选）"]]])
    end
  else
    let missing := [] in
    let missing :=
      match ZAI_API_KEY config with
      | [] => missing ++ [lit "ZAI_API_KEY"]
      | _ => missing
      end in
    let missing :=
      match SUNO_API_KEY config with
      | [] => missing ++ [lit "SUNO_API_KEY"]
      | _ => missing
      end in
    match missing with
    | [] => (inr true, [])
    | _ =>
        (inr false,
         [Print [[Text "
[!] 缺少必需的 API 密钥："; FStr (PyStr.join (lit ", ") missing)]];
          Print [[Text "请编辑 "; FStr resolved;
                  Text " 文件，填入密钥后重新运行。"]]])
    end.

(** The value the last line of [lines] that sets [name] gives it, [None]
    when no line sets it. *)
Fixpoint assigned (name : pystr) (lines : list pystr) : option pystr :=
  match lines with
  | [] => None
  | line :: lines' =>
      match assigned name lines' with
      | Some value => Some value
      | None =>
          match env_line line with
          | Some (key, value) =>
              if bool_decide (name = key) then Some value else None
          | None => None
          end
      end
  end.

End Config.

(** [API_KEY = get_suno_api_key()] and [BASE_URL = get_aimusic_base_url()]:
    what [suno_client] reads from [config] when it is imported. *)
Definition module_config (c : Config.t) : config :=
  {| API_KEY := Config.get_suno_api_key c;
     BASE_URL := Config.get_aimusic_base_url c |}.

(** A key as a [.env] line is expected to have it: not empty, no white
    space at its ends, not starting a comment, no [=]. *)
Definition well_formed_key (key : pystr) : bool :=
  bool_decide (key <> []) && bool_decide (Str.strip Str.isspace key = key)
  && negb (PyStr.startswith 35 key) && negb (PyStr.contains 61 key).

(** The error is the module's own, of the configuration kind. *)
Definition is_configuration_error (e : exn) : bool :=
  match e with
  | SunoClientError msg =>
      match kind_of_message msg with
      | Some ConfigurationError => true
      | _ => false
      end
  | Foreign _ => false
  end.

(** * Properties *)

(** ** Strings and the slug *)

Section slug_facts.

Variable uni_isalnum : N -> bool.

Let bad := Re.not_word_or_hyphen uni_isalnum.
Let us := Str.one_of (lit "_").
Let sub := Re.sub_plus bad (lit "_").

Lemma drop_while_snoc p (l : pystr) x :
  Str.drop_while p (l ++ [x]) =
  match Str.drop_while p l with
  | [] => if p x then [] else [x]
  | r => r ++ [x]
  end.
Proof.
  induction l as [|a l IH]; simpl; [reflexivity|].
  destruct (p a); [exact IH | reflexivity].
Qed.

Lemma rstrip_cons p x (s : pystr) :
  Str.rstrip p (x :: s) =
  match Str.rstrip p s with
  | [] => if p x then [] else [x]
  | r => x :: r
  end.
Proof.
  unfold Str.rstrip. simpl rev. rewrite drop_while_snoc.
  destruct (Str.drop_while p (rev s)) as [|a r]; simpl.
  - destruct (p x); reflexivity.
  - rewrite rev_app_distr. simpl.
    destruct (rev r ++ [a]) eqn:Hr; [|reflexivity].
    apply app_eq_nil in Hr. destruct Hr; discriminate.
Qed.

Lemma rstrip_all p (s : pystr) :
  forallb p s = true -> Str.rstrip p s = [].
Proof.
  induction s as [|x s IH]; simpl; [reflexivity|].
  intros [Hx Hs]%andb_true_iff. rewrite rstrip_cons, (IH Hs), Hx. reflexivity.
Qed.

Lemma rstrip_nil_all p (s : pystr) :
  Str.rstrip p s = [] -> forallb p s = true.
Proof.
  induction s as [|x s IH]; simpl; [reflexivity|].
  rewrite rstrip_cons. destruct (Str.rstrip p s); [|discriminate].
  destruct (p x); [intros _; exact (IH eq_refl) | discriminate].
Qed.

Lemma lstrip_all p (s : pystr) :
  forallb p s = true -> Str.lstrip p s = [].
Proof.
  induction s as [|x s IH]; simpl; [reflexivity|].
  intros [Hx Hs]%andb_true_iff. rewrite Hx. exact (IH Hs).
Qed.

Lemma lstrip_rstrip p (s : pystr) :
  Str.lstrip p (Str.rstrip p s) = Str.rstrip p (Str.lstrip p s).
Proof.
  induction s as [|x s IH]; [reflexivity|].
  rewrite rstrip_cons. simpl Str.lstrip at 2.
  destruct (p x) eqn:Hx.
  - destruct (Str.rstrip p s) as [|a r] eqn:Hr.
    + apply rstrip_nil_all in Hr.
      change (Str.drop_while p s) with (Str.lstrip p s).
      rewrite (lstrip_all _ _ Hr). reflexivity.
    + rewrite <- IH. simpl. rewrite Hx. reflexivity.
  - rewrite rstrip_cons.
    destruct (Str.rstrip p s); simpl; rewrite Hx; reflexivity.
Qed.

Lemma lstrip_split p (s : pystr) :
  exists a, s = a ++ Str.lstrip p s /\ forallb p a = true.
Proof.
  induction s as [|x s [a [Ha Hp]]]; [exists []; split; reflexivity|].
  simpl. destruct (p x) eqn:Hx.
  - exists (x :: a). simpl. rewrite Hx, Hp. split; [f_equal; exact Ha | reflexivity].
  - exists []. split; reflexivity.
Qed.

Lemma forallb_rev p (s : pystr) : forallb p (rev s) = forallb p s.
Proof.
  induction s as [|x s IH]; [reflexivity|].
  simpl. rewrite forallb_app, IH. simpl. rewrite andb_true_r, andb_comm.
  reflexivity.
Qed.

Lemma rstrip_split p (s : pystr) :
  exists b, s = Str.rstrip p s ++ b /\ forallb p b = true.
Proof.
  destruct (lstrip_split p (rev s)) as [a [Ha Hp]].
  exists (rev a). split.
  - unfold Str.rstrip. rewrite <- rev_app_distr.
    unfold Str.lstrip in Ha. rewrite <- Ha, rev_involutive. reflexivity.
  - rewrite forallb_rev. exact Hp.
Qed.

Lemma strip_split p (s : pystr) :
  exists a b, s = a ++ Str.strip p s ++ b
              /\ forallb p a = true /\ forallb p b = true.
Proof.
  destruct (lstrip_split p s) as [a [Ha Hpa]].
  destruct (rstrip_split p (Str.lstrip p s)) as [b [Hb Hpb]].
  exists a, b. unfold Str.strip. rewrite <- Hb. auto.
Qed.

Lemma forallb_drop_while p q (s : pystr) :
  forallb p s = true -> forallb p (Str.drop_while q s) = true.
Proof.
  induction s as [|x s IH]; simpl; [reflexivity|].
  intros H. destruct (q x); [|exact H].
  apply andb_true_iff in H. exact (IH (proj2 H)).
Qed.

Lemma forallb_strip p q (s : pystr) :
  forallb p s = true -> forallb p (Str.strip q s) = true.
Proof.
  intros H. unfold Str.strip, Str.rstrip, Str.lstrip.
  rewrite forallb_rev. apply forallb_drop_while.
  rewrite forallb_rev. apply forallb_drop_while. exact H.
Qed.

(** *** The substitution *)

Lemma sub_nil : sub [] = [].
Proof. unfold sub. now simp sub_plus. Qed.

Lemma sub_cons_bad c t :
  bad c = true -> sub (c :: t) = 95%N :: sub (Str.drop_while bad t).
Proof. intros H. unfold sub. simp sub_plus. rewrite H. reflexivity. Qed.

Lemma sub_cons_ok c t :
  bad c = false -> sub (c :: t) = c :: sub t.
Proof. intros H. unfold sub. simp sub_plus. rewrite H. reflexivity. Qed.

Lemma drop_while_all (s : pystr) :
  forallb bad s = true -> Str.drop_while bad s = [].
Proof. apply lstrip_all. Qed.

Lemma sub_all_bad c t :
  forallb bad (c :: t) = true -> sub (c :: t) = [95%N].
Proof.
  simpl. intros [Hc Ht]%andb_true_iff.
  rewrite (sub_cons_bad _ _ Hc), (drop_while_all _ Ht), sub_nil. reflexivity.
Qed.

Lemma lstrip_sub_drop t :
  Str.lstrip us (sub (Str.drop_while bad t)) = Str.lstrip us (sub t).
Proof.
  destruct t as [|d t]; [reflexivity|].
  simpl. destruct (bad d) eqn:Hd; [|reflexivity].
  rewrite (sub_cons_bad _ _ Hd). reflexivity.
Qed.

Lemma lstrip_sub_lead a t :
  forallb bad a = true ->
  Str.lstrip us (sub (a ++ t)) = Str.lstrip us (sub t).
Proof.
  induction a as [|c a IH]; [reflexivity|].
  simpl. intros [Hc Ha]%andb_true_iff.
  rewrite (sub_cons_bad _ _ Hc).
  change (Str.lstrip us (95%N :: ?x)) with (Str.lstrip us x).
  rewrite lstrip_sub_drop. exact (IH Ha).
Qed.

Lemma drop_while_app_bad t b :
  forallb bad b = true ->
  exists b', forallb bad b' = true
             /\ Str.drop_while bad (t ++ b) = Str.drop_while bad t ++ b'.
Proof.
  intros Hb. induction t as [|d t IH]; simpl.
  - exists []. rewrite (drop_while_all _ Hb). auto.
  - destruct (bad d); [exact IH|]. exists b. auto.
Qed.

Lemma drop_while_length p (t : pystr) :
  (length (Str.drop_while p t) <= length t)%nat.
Proof.
  induction t as [|d t IH]; simpl; [lia|]. destruct (p d); simpl; lia.
Qed.

Lemma rstrip_sub_trail_n n : forall t b,
  (length t <= n)%nat -> forallb bad b = true ->
  Str.rstrip us (sub (t ++ b)) = Str.rstrip us (sub t).
Proof.
  induction n as [|n IH]; intros t b Hn Hb.
  - destruct t; [|simpl in Hn; lia]. simpl.
    destruct b as [|c b]; [reflexivity|].
    rewrite (sub_all_bad _ _ Hb), sub_nil. reflexivity.
  - destruct t as [|c t].
    + simpl. destruct b as [|d b]; [reflexivity|].
      rewrite (sub_all_bad _ _ Hb), sub_nil. reflexivity.
    + simpl in Hn. simpl app. destruct (bad c) eqn:Hc.
      * rewrite !(sub_cons_bad _ _ Hc), !rstrip_cons.
        destruct (drop_while_app_bad t b Hb) as [b' [Hb' ->]].
        rewrite IH; [reflexivity| |exact Hb'].
        pose proof (drop_while_length bad t). lia.
      * rewrite !(sub_cons_ok _ _ Hc), !rstrip_cons.
        rewrite IH; [reflexivity|lia|exact Hb].
Qed.

Lemma rstrip_sub_trail t b :
  forallb bad b = true ->
  Str.rstrip us (sub (t ++ b)) = Str.rstrip us (sub t).
Proof. apply (rstrip_sub_trail_n (length t)). lia. Qed.

(** [re.sub] replaces the maximal runs. *)
Lemma runs_head c t :
  exists r rest, SlugSpec.runs bad (c :: t) = (bad c, c :: r) :: rest.
Proof.
  simpl. destruct (SlugSpec.runs bad t) as [|[b r] rest]; [eauto|].
  destruct (Bool.eqb b (bad c)) eqn:Hb; [|eauto].
  apply eqb_prop in Hb. subst b. eauto.
Qed.

Lemma replace_runs_cons_ok c t :
  bad c = false ->
  SlugSpec.replace_runs bad (lit "_") (c :: t)
  = c :: SlugSpec.replace_runs bad (lit "_") t.
Proof.
  intros Hc. unfold SlugSpec.replace_runs. simpl.
  destruct (SlugSpec.runs bad t) as [|[b r] rest]; simpl.
  - rewrite Hc. reflexivity.
  - rewrite Hc. destruct b; simpl; rewrite ?Hc; reflexivity.
Qed.

Lemma replace_runs_cons_bad c t :
  bad c = true ->
  SlugSpec.replace_runs bad (lit "_") (c :: t)
  = 95%N :: SlugSpec.replace_runs bad (lit "_") (Str.drop_while bad t).
Proof.
  intros Hc. revert c Hc. induction t as [|d t IH]; intros c Hc.
  - unfold SlugSpec.replace_runs. simpl. rewrite Hc. reflexivity.
  - simpl Str.drop_while. destruct (bad d) eqn:Hd.
    + rewrite <- (IH d Hd).
      destruct (runs_head d t) as [r [rest Hr]].
      unfold SlugSpec.replace_runs.
      change (SlugSpec.runs bad (c :: d :: t)) with
        (match SlugSpec.runs bad (d :: t) with
         | (b, r) :: rest =>
             if Bool.eqb b (bad c) then (b, c :: r) :: rest
             else (bad c, [c]) :: (b, r) :: rest
         | [] => [(bad c, [c])]
         end).
      rewrite Hr, Hd, Hc. reflexivity.
    + destruct (runs_head d t) as [r [rest Hr]].
      unfold SlugSpec.replace_runs.
      change (SlugSpec.runs bad (c :: d :: t)) with
        (match SlugSpec.runs bad (d :: t) with
         | (b, r) :: rest =>
             if Bool.eqb b (bad c) then (b, c :: r) :: rest
             else (bad c, [c]) :: (b, r) :: rest
         | [] => [(bad c, [c])]
         end).
      rewrite Hr, Hd, Hc. reflexivity.
Qed.

Lemma sub_replace_runs_n n : forall t,
  (length t <= n)%nat -> sub t = SlugSpec.replace_runs bad (lit "_") t.
Proof.
  induction n as [|n IH]; intros [|c t] Hn; simpl in Hn;
    try (rewrite sub_nil; reflexivity); try lia.
  destruct (bad c) eqn:Hc.
  - rewrite (sub_cons_bad _ _ Hc), (replace_runs_cons_bad _ _ Hc).
    f_equal. apply IH. pose proof (drop_while_length bad t). lia.
  - rewrite (sub_cons_ok _ _ Hc), (replace_runs_cons_ok _ _ Hc).
    f_equal. apply IH. lia.
Qed.

Lemma sub_replace_runs t : sub t = SlugSpec.replace_runs bad (lit "_") t.
Proof. apply (sub_replace_runs_n (length t)). lia. Qed.

End slug_facts.


Section slug_results.

Variable uni_isalnum : N -> bool.

#[local] Abbreviation bad := (Re.not_word_or_hyphen uni_isalnum).
#[local] Abbreviation us := (Str.one_of (lit "_")).
#[local] Abbreviation slug_ch := (slug_char uni_isalnum).

(** White space is never a word character nor a hyphen, given that the
    Unicode table has no alphanumeric white space. *)
Lemma isspace_bad c :
  (forall c, Str.isspace c = true -> uni_isalnum c = false) ->
  Str.isspace c = true -> bad c = true.
Proof.
  intros H Hs. unfold Re.not_word_or_hyphen, Re.is_word, Re.isalnum.
  assert (Hc : (9 <= c <= 13 \/ 28 <= c <= 32 \/ 128 <= c)%N).
  { unfold Str.isspace in Hs.
    rewrite !orb_true_iff, !andb_true_iff, !N.leb_le, !N.eqb_eq in Hs. lia. }
  apply negb_true_iff.
  destruct (N.ltb_spec c 128) as [Hlt|Hge].
  - unfold Re.ascii_isalnum.
    rewrite !orb_false_iff, !andb_false_iff, !N.leb_gt, !N.eqb_neq. lia.
  - rewrite (H c Hs). rewrite !orb_false_iff, !N.eqb_neq. lia.
Qed.

Lemma forallb_impl (p q : N -> bool) (s : pystr) :
  (forall c, p c = true -> q c = true) ->
  forallb p s = true -> forallb q s = true.
Proof.
  intros H. induction s as [|x s IH]; simpl; [reflexivity|].
  intros [Hx Hs]%andb_true_iff. rewrite (H x Hx), (IH Hs). reflexivity.
Qed.

(** The slug the code computes is the slug the specification describes. *)
Lemma slugify_spec_slug title :
  (forall c, Str.isspace c = true -> uni_isalnum c = false) ->
  _slugify uni_isalnum title = SlugSpec.spec_slug uni_isalnum title.
Proof.
  intros H. unfold _slugify, SlugSpec.spec_slug.
  rewrite <- (sub_replace_runs uni_isalnum title).
  destruct (strip_split Str.isspace title) as [a [b [Ht [Ha Hb]]]].
  apply (forallb_impl _ bad) in Ha; [|intros c; apply isspace_bad; exact H].
  apply (forallb_impl _ bad) in Hb; [|intros c; apply isspace_bad; exact H].
  assert (Heq : Str.strip us (Re.sub_plus bad (lit "_") title)
                = Str.strip us (Re.sub_plus bad (lit "_")
                                  (Str.strip Str.isspace title))).
  { rewrite Ht at 1. unfold Str.strip at 1 3.
    rewrite (lstrip_sub_lead uni_isalnum a _ Ha).
    rewrite <- !lstrip_rstrip.
    rewrite (rstrip_sub_trail uni_isalnum _ b Hb). reflexivity. }
  rewrite Heq.
  clear Heq. destruct (Str.strip Str.isspace title) as [|c0 t0].
  - rewrite (sub_nil uni_isalnum). reflexivity.
  - destruct (Str.strip us (Re.sub_plus bad (lit "_") (c0 :: t0))); reflexivity.
Qed.

Lemma slugify_nonempty title :
  exists c s, _slugify uni_isalnum title = c :: s.
Proof.
  unfold _slugify.
  destruct (Str.strip Str.isspace title); [compute; eauto|].
  destruct (Str.strip _ _); [compute; eauto|eauto].
Qed.

Lemma slugify_all_bad title :
  forallb bad title = true -> _slugify uni_isalnum title = fallback_name.
Proof.
  intros H. unfold _slugify.
  pose proof (forallb_strip bad Str.isspace title H) as Hc.
  destruct (Str.strip Str.isspace title) as [|c t]; [reflexivity|].
  rewrite (sub_all_bad uni_isalnum c t Hc). reflexivity.
Qed.

Lemma sub_chars_n n : forall t,
  (length t <= n)%nat ->
  forallb (fun c => slug_ch c || (c =? 95)%N)
          (Re.sub_plus bad (lit "_") t) = true.
Proof.
  induction n as [|n IH]; intros [|c t] Hn; simpl in Hn;
    try (rewrite (sub_nil uni_isalnum); reflexivity); try lia.
  destruct (bad c) eqn:Hc.
  - rewrite (sub_cons_bad uni_isalnum _ _ Hc). cbn [forallb].
    apply andb_true_iff. split; [apply orb_true_iff; right; reflexivity|].
    apply IH. pose proof (drop_while_length bad t). lia.
  - rewrite (sub_cons_ok uni_isalnum _ _ Hc). cbn [forallb].
    apply andb_true_iff. split; [|apply IH; lia].
    unfold slug_ch. rewrite Hc. reflexivity.
Qed.

Lemma underscore_is_slug_char c : (c =? 95)%N = true -> slug_ch c = true.
Proof.
  intros ->%N.eqb_eq. reflexivity.
Qed.

Lemma slugify_chars title :
  forallb slug_ch (_slugify uni_isalnum title) = true.
Proof.
  assert (Hsub : forall t, forallb slug_ch (Re.sub_plus bad (lit "_") t) = true).
  { intros t. apply (forallb_impl (fun c => slug_ch c || (c =? 95)%N)).
    - intros c [Hc|Hc]%orb_true_iff; [exact Hc|].
      apply underscore_is_slug_char, Hc.
    - apply (sub_chars_n (length t)). lia. }
  unfold _slugify.
  destruct (Str.strip Str.isspace title) as [|c t]; [reflexivity|].
  pose proof (forallb_strip slug_ch us _ (Hsub (c :: t))) as Hs.
  destruct (Str.strip us _); [reflexivity|exact Hs].
Qed.

Lemma slug_char_not_dot c : slug_ch c = true -> (46 =? c)%N = false.
Proof.
  intros H. destruct (N.eqb_spec 46 c) as [<-|]; [|reflexivity].
  discriminate H.
Qed.

Lemma rsplit1_head_ext (s : pystr) :
  forallb slug_ch s = true ->
  Str.rsplit1_head 46 (s ++ lit ".mp3") = s.
Proof.
  induction s as [|c s IH]; [reflexivity|].
  simpl. intros [Hc Hs]%andb_true_iff.
  replace (existsb (N.eqb 46) (s ++ lit ".mp3")) with true.
  - f_equal. exact (IH Hs).
  - symmetry. rewrite existsb_app. apply orb_true_iff. right. reflexivity.
Qed.

(** The cover name [_download_audio] derives from the audio name of a slug. *)
Lemma cover_name_of_slug title :
  Str.rsplit1_head 46 (_slugify uni_isalnum title ++ lit ".mp3")
    ++ lit "_cover.jpg"
  = _slugify uni_isalnum title ++ lit "_cover.jpg".
Proof.
  rewrite rsplit1_head_ext; [reflexivity|apply slugify_chars].
Qed.

Lemma rsplit1_head_prefix sep (s : pystr) :
  exists rest,
    s = Str.rsplit1_head sep s ++ rest
    /\ (rest = [] \/ exists ext, rest = sep :: ext).
Proof.
  induction s as [|c s (rest & Hs & Hrest)]; [exists []; auto|].
  cbn [Str.rsplit1_head]. destruct (existsb (N.eqb sep) s).
  - exists rest. split; [cbn; f_equal; exact Hs|exact Hrest].
  - destruct (N.eqb_spec c sep) as [->|Hne].
    + exists (sep :: s). split; [reflexivity|eauto].
    + exists []. rewrite app_nil_r. auto.
Qed.

(** The cover never overwrites the audio file. *)
Lemma cover_name_differs (filename : pystr) :
  Str.rsplit1_head 46 filename ++ lit "_cover.jpg" <> filename.
Proof.
  destruct (rsplit1_head_prefix 46%N filename) as (rest & Hs & Hrest).
  intros Heq. rewrite Hs in Heq at 2. apply app_inv_head in Heq.
  destruct Hrest as [->|(ext & ->)]; discriminate Heq.
Qed.

End slug_results.


(** ** The scenarios, run *)

Section scenarios.

Import Scenario.

Example scenario_A :
  fst (_create_suno_task (env_of [inr created] 0) cfg0 (lit "fast, cute")
         default_title None false w0)
  = Done (str "abc123").
Proof. vm_compute. reflexivity. Qed.

Example scenario_B :
  fst (generate_music_from_prompt_en
         (env_of [inr created; inr pending; inr pending; inr (finished clip_B);
                  inr audio] 200)
         cfg0 ascii_only 10 (lit "fast, cute") default_title None false 360 15 w0)
  = Done {| audio_path := OUTPUT_DIR_slash (lit "Hakimi_Meme_Track.mp3");
            cover_path := None;
            title := str "T"; tags := JNull; duration := JInt 30;
            clip_id := str "c1" |}.
Proof. vm_compute. reflexivity. Qed.

Example scenario_C :
  fst (generate_music_from_prompt_en
         (env_of [inr created; inr (finished clip_C)] 200)
         cfg0 ascii_only 10 (lit "fast, cute") default_title None false 360 15 w0)
  = Raised (SunoClientError (job_failed_msg (JObj clip_C))).
Proof. vm_compute. reflexivity. Qed.

Example scenario_D :
  let r := _poll_suno_task (env_pending (fun _ => 0%N)) cfg0 10 (str "abc123")
             30 15 w0 in
  fst r = Raised (SunoClientError (timeout_msg 30 (str "abc123")))
  /\ clock (snd r) = 45000 /\ sent (snd r) = 3%nat.
Proof. vm_compute. auto. Qed.

Example scenario_E :
  fst (generate_music_from_prompt_en
         (env_of [inr created; inr (finished clip_E); inr audio] 200)
         cfg0 ascii_only 10 (lit "fast, cute") default_title None false 360 15 w0)
  = Done {| audio_path := OUTPUT_DIR_slash (lit "Hakimi_Meme_Track.mp3");
            cover_path := None;
            title := str "T"; tags := JNull; duration := JInt 30;
            clip_id := str "c1" |}.
Proof. vm_compute. reflexivity. Qed.

End scenarios.

(** ** Running the monad, one call at a time *)

Section running.

Variable E : env.
Context {A B : Type}.
Implicit Types (k : A -> M B) (w : world).

Lemma run_ret (a : A) w : ret a w = (Done a, w).
Proof. reflexivity. Qed.

Lemma run_raise e w : raise (A := A) e w = (Raised e, w).
Proof. reflexivity. Qed.

Lemma run_print args w : print args w = (Done tt, log (EvPrint args) w).
Proof. reflexivity. Qed.

Lemma bind_ret (a : A) k w : bind (ret a) k w = k a w.
Proof. reflexivity. Qed.

Lemma bind_raise e k w : bind (raise e) k w = (Raised e, w).
Proof. reflexivity. Qed.

Lemma bind_bind {C} (m : M C) (f : C -> M A) k w :
  bind (bind m f) k w = bind m (fun x => bind (f x) k) w.
Proof. unfold bind. destruct (m w) as [[c|e|] w1]; reflexivity. Qed.

Lemma bind_print args (k : unit -> M B) w :
  bind (print args) k w = k tt (log (EvPrint args) w).
Proof. reflexivity. Qed.

Lemma bind_time (k : Z -> M B) w :
  bind time_time k w = k (clock w) (log (EvClock (clock w)) w).
Proof. reflexivity. Qed.

Lemma bind_sleep s (k : unit -> M B) w :
  bind (time_sleep s) k w =
  if s <? 0 then (Raised (Foreign ValueError), w) else k tt (slept s w).
Proof. unfold bind, time_sleep. destruct (s <? 0); reflexivity. Qed.

Lemma bind_send r (k : response -> M B) w :
  bind (requests_send E r) k w =
  match net E (sent w) r with
  | (inl e, ms) => (Raised (Foreign (RequestException e)), answered r ms w)
  | (inr resp, ms) => k resp (answered r ms w)
  end.
Proof.
  unfold bind, requests_send. destruct (net E (sent w) r) as [[e|resp] ms];
    reflexivity.
Qed.

Lemma bind_try_send r (k : exn + response -> M B) w :
  bind (try_ (requests_send E r)) k w =
  match net E (sent w) r with
  | (inl e, ms) => k (inl (Foreign (RequestException e))) (answered r ms w)
  | (inr resp, ms) => k (inr resp) (answered r ms w)
  end.
Proof.
  unfold bind, try_, requests_send.
  destruct (net E (sent w) r) as [[e|resp] ms]; reflexivity.
Qed.

Lemma bind_status resp (k : unit -> M B) w :
  bind (raise_for_status resp) k w =
  if (400 <=? status_code resp) && (status_code resp <? 600)
  then (Raised (Foreign (RequestException (HTTPError (status_code resp)))), w)
  else k tt w.
Proof. unfold raise_for_status. destruct (_ && _); reflexivity. Qed.

Lemma bind_json resp (k : json -> M B) w :
  bind (resp_json resp) k w =
  match json_body resp with
  | Some v => k v w
  | None => (Raised (Foreign (RequestException JSONDecodeError)), w)
  end.
Proof. unfold resp_json. destruct (json_body resp); reflexivity. Qed.

Lemma bind_try_json resp (k : exn + json -> M B) w :
  bind (try_ (resp_json resp)) k w =
  match json_body resp with
  | Some v => k (inr v) w
  | None => k (inl (Foreign (RequestException JSONDecodeError))) w
  end.
Proof. unfold resp_json. destruct (json_body resp); reflexivity. Qed.

Lemma bind_write p data (k : unit -> M B) w :
  bind (write_file E p data) k w =
  if disk E p then k tt (wrote p data w) else (Raised (Foreign OSError), w).
Proof. unfold bind, write_file. destruct (disk E p); reflexivity. Qed.

Lemma bind_method_get v key (k : json -> M B) w :
  bind (method_get v key) k w =
  match v with
  | JObj o => k (Py.get key o) w
  | _ => (Raised (Foreign AttributeError), w)
  end.
Proof. destruct v; reflexivity. Qed.

Lemma bind_item0 v (k : json -> M B) w :
  bind (item0 v) k w =
  match v with
  | JArr (x :: _) => k x w
  | JArr [] => (Raised (Foreign IndexError), w)
  | JStr (c :: _) => k (JStr [c]) w
  | JStr [] => (Raised (Foreign IndexError), w)
  | JObj _ => (Raised (Foreign KeyError), w)
  | _ => (Raised (Foreign TypeError), w)
  end.
Proof. destruct v as [| | | |[|]|[|]|]; reflexivity. Qed.

Lemma bind_try {C} (m : M C) (k : exn + C -> M B) w :
  bind (try_ m) k w =
  match m w with
  | (Done c, w1) => k (inr c) w1
  | (Raised e, w1) => k (inl e) w1
  | (OutOfFuel, w1) => (OutOfFuel, w1)
  end.
Proof. unfold bind, try_. destruct (m w) as [[c|e|] w1]; reflexivity. Qed.

Lemma bind_if {C} (b : bool) (m1 m2 : M C) (k : C -> M B) w :
  bind (if b then m1 else m2) k w = if b then bind m1 k w else bind m2 k w.
Proof. destruct b; reflexivity. Qed.

End running.

Ltac mrun :=
  cbv beta iota zeta;
  cbn [fst snd clock sent trace files log slept answered wrote].

Ltac mstep :=
  mrun;
  repeat (first
    [ rewrite bind_bind | rewrite bind_ret | rewrite bind_raise
    | rewrite bind_print | rewrite bind_time | rewrite bind_sleep
    | rewrite bind_try_send | rewrite bind_send | rewrite bind_status
    | rewrite bind_try_json | rewrite bind_json | rewrite bind_write
    | rewrite bind_method_get | rewrite bind_item0 | rewrite bind_if
    | rewrite bind_try
    | rewrite run_ret | rewrite run_raise | rewrite run_print ]; mrun).

(** Case analysis on what the run at the head of the goal is stuck on. *)
Ltac innermost x :=
  lazymatch x with
  | context [match ?y with _ => _ end] => innermost y
  | _ => destruct x eqn:?
  end.

Ltac mcase :=
  match goal with
  | |- (match ?x with _ => _ end) = _ -> _ => innermost x
  | |- bind (match ?x with _ => _ end) _ _ = _ -> _ => innermost x
  | |- (match ?x with _ => _ end) _ = _ -> _ => innermost x
  end.

Ltac mgo := mstep; repeat (mcase; mstep).

(** ** One pass through the polling loop *)

Section poll_facts.

Variables (E : env) (cfg : config).
Variables (task_id : json) (max_wait interval start : Z).

#[local] Abbreviation body := (poll_iteration E cfg task_id max_wait interval start).
#[local] Abbreviation query := (poll_request cfg task_id).
#[local] Abbreviation timed_out_exn := (SunoClientError (timeout_msg max_wait task_id)).

Lemma poll_iteration_inv attempt w o w' :
  body attempt w = (o, w') ->
  files w' = files w
  /\ clock w <= clock w'
  /\ match o with
     | OutOfFuel => False
     | Done None =>
         elapsed_at start w <= max_wait /\ 0 <= interval
         /\ sent w' = S (sent w)
         /\ clock w' = clock w + Z.of_N (snd (net E (sent w) query))
                       + interval * 1000
     | Done (Some c) =>
         elapsed_at start w <= max_wait
         /\ Py.eq_str (Py.get "state" c) "succeeded" = true
         /\ sent w' = S (sent w)
     | Raised e =>
         (e = timed_out_exn /\ max_wait < elapsed_at start w
          /\ clock w' = clock w /\ sent w' = sent w)
         \/ (elapsed_at start w <= max_wait /\ sent w' = S (sent w)
             /\ is_request_exception e = false
             /\ is_timeout_message e = false)
     end.
Proof.
  unfold poll_iteration, elapsed_at. mstep.
  destruct (max_wait <? (clock w - start) ÷ 1000) eqn:Hd.
  { mstep. intros [= <- <-]. mrun. apply Z.ltb_lt in Hd.
    split; [reflexivity|]. split; [lia|]. left. auto. }
  apply Z.ltb_ge in Hd. mstep.
  destruct (net E (sent w) query) as [[e|resp] ms] eqn:Hnet; mrun.
  all: pose proof (N2Z.is_nonneg ms).
  all: mgo.
  all: intros [= <- <-]; mrun.
  all: repeat match goal with H : (_ <? _) = false |- _ => apply Z.ltb_ge in H end.
  all: split; [reflexivity|]; (split; [lia|]).
  all: try (right; repeat split; auto; fail).
  all: try (repeat split; auto; try lia; fail).
Qed.


End poll_facts.


(** ** The polling loop *)

Section poll_loop_facts.

Variables (E : env) (cfg : config).
Variables (task_id : json) (max_wait interval start : Z).

#[local] Abbreviation body := (poll_iteration E cfg task_id max_wait interval start).
#[local] Abbreviation loop := (poll_loop E cfg).
#[local] Abbreviation query := (poll_request cfg task_id).
#[local] Abbreviation timed_out_exn := (SunoClientError (timeout_msg max_wait task_id)).

Lemma poll_loop_S fuel attempt w :
  loop (S fuel) task_id max_wait interval start attempt w =
  match body attempt w with
  | (Done (Some clip), w1) => (Done clip, w1)
  | (Done None, w1) => loop fuel task_id max_wait interval start (attempt + 1) w1
  | (Raised e, w1) => (Raised e, w1)
  | (OutOfFuel, w1) => (OutOfFuel, w1)
  end.
Proof.
  cbn [poll_loop]. unfold bind.
  destruct (body attempt w) as [[[c|]|e|] w1]; reflexivity.
Qed.



Lemma poll_loop_inv fuel : forall attempt w o w',
  loop fuel task_id max_wait interval start attempt w = (o, w') ->
  files w' = files w
  /\ clock w <= clock w'
  /\ (sent w <= sent w')%nat
  /\ match o with
     | Done c => Py.eq_str (Py.get "state" c) "succeeded" = true
     | Raised e => is_request_exception e = false
     | OutOfFuel => True
     end.
Proof.
  induction fuel as [|fuel IH]; intros attempt w o w'.
  { intros [= <- <-]. repeat split; lia. }
  rewrite poll_loop_S.
  destruct (body attempt w) as [o1 w1] eqn:Hb.
  destruct (poll_iteration_inv _ _ _ _ _ _ _ _ _ _ Hb) as (Hf & Hc & Ho).
  destruct o1 as [[c|]|e|]; [| |intros [= <- <-]|contradiction].
  - intros [= <- <-]. destruct Ho as (_ & Hst & Hsent).
    repeat split; auto; lia.
  - intros Hl. destruct (IH _ _ _ _ Hl) as (Hf' & Hc' & Hs' & Ho').
    destruct Ho as (_ & _ & Hsent & _).
    repeat split; [congruence|lia|lia|exact Ho'].
  - repeat split; auto.
    + destruct Ho as [(_ & _ & _ & ->)|(_ & -> & _)]; lia.
    + destruct Ho as [(-> & _)|(_ & _ & Hr & _)]; [reflexivity|exact Hr].
Qed.



End poll_loop_facts.


(** ** Claims on one pass, and whole calls of the loop *)

Section claims.

Variables (E : env) (cfg : config).



Lemma poll_task_run fuel task_id max_wait interval w :
  API_KEY cfg <> [] ->
  _poll_suno_task E cfg fuel task_id max_wait interval w
  = poll_loop E cfg fuel task_id max_wait interval (clock w) 0
      (log (EvClock (clock w)) w).
Proof.
  intros Hk. unfold _poll_suno_task, _ensure_api_key.
  destruct (API_KEY cfg); [contradiction|]. mstep. reflexivity.
Qed.

Lemma poll_task_no_key fuel task_id max_wait interval w :
  API_KEY cfg = [] ->
  _poll_suno_task E cfg fuel task_id max_wait interval w
  = (Raised (SunoClientError missing_key_msg), w).
Proof.
  intros Hk. unfold _poll_suno_task, _ensure_api_key. rewrite Hk. reflexivity.
Qed.






End claims.


(** ** Submission *)

Section submission.

Variables (E : env) (cfg : config).

Lemma create_no_key prompt title tags inst w :
  API_KEY cfg = [] ->
  _create_suno_task E cfg prompt title tags inst w
  = (Raised (SunoClientError missing_key_msg), w).
Proof.
  intros Hk. unfold _create_suno_task, _ensure_api_key. rewrite Hk. reflexivity.
Qed.

(** The world in which the submission request is sent. *)
Lemma create_refused prompt title tags inst w e ms :
  API_KEY cfg <> [] ->
  net E (sent w) (submission_request cfg prompt inst) = (inl e, ms) ->
  exists w1,
    _create_suno_task E cfg prompt title tags inst w
    = (Raised (Foreign (RequestException e)), w1)
    /\ sent w1 = S (sent w)
    /\ files w1 = files w
    /\ requests_of (trace w1)
       = requests_of (trace w) ++ [submission_request cfg prompt inst].
Proof.
  intros Hk Hnet. unfold _create_suno_task, _ensure_api_key.
  destruct (API_KEY cfg) eqn:Hkey; [contradiction|]. mstep.
  unfold create_url, create_headers.
  unfold submission_request in Hnet. rewrite Hnet.
  eexists. split; [reflexivity|]. mrun. split; [reflexivity|].
  split; [reflexivity|].
  unfold requests_of. rewrite !flat_map_app. cbn. rewrite !app_nil_r.
  reflexivity.
Qed.

Lemma create_answered prompt title tags inst w resp ms :
  API_KEY cfg <> [] ->
  net E (sent w) (submission_request cfg prompt inst) = (inr resp, ms) ->
  exists w1,
    _create_suno_task E cfg prompt title tags inst w
    = (if status_passes resp then
         match json_body resp with
         | None => Raised (Foreign (RequestException JSONDecodeError))
         | Some (JObj o) =>
             if Py.eq_str (Py.get "message" o) "success"
                && Py.has_key "task_id" o
             then match Py.lookup (lit "task_id") o with
                  | Some task_id => Done task_id
                  | None => Raised (Foreign KeyError)
                  end
             else Raised (SunoClientError (rejected_msg (JObj o)))
         | Some _ => Raised (Foreign AttributeError)
         end
       else Raised (Foreign (RequestException (HTTPError (status_code resp)))),
       w1)
    /\ sent w1 = S (sent w)
    /\ files w1 = files w
    /\ requests_of (trace w1)
       = requests_of (trace w) ++ [submission_request cfg prompt inst].
Proof.
  intros Hk Hnet. unfold _create_suno_task, _ensure_api_key, status_passes.
  destruct (API_KEY cfg) eqn:Hkey; [contradiction|]. mstep.
  unfold create_url, create_headers.
  unfold submission_request in Hnet. rewrite Hnet. mstep.
  assert (Hreq : forall evs tr r,
             requests_of evs = [] ->
             requests_of ((tr ++ [EvRequest r]) ++ evs) = requests_of tr ++ [r]).
  { intros evs tr r He. unfold requests_of in *. rewrite !flat_map_app, He.
    cbn. rewrite !app_nil_r. reflexivity. }
  destruct (_ && _) eqn:Hst; cbn [negb]; mstep.
  { eexists. split; [reflexivity|]. mrun. repeat split.
    unfold requests_of. rewrite !flat_map_app. cbn. rewrite !app_nil_r.
    reflexivity. }
  destruct (json_body resp) as [[| | | | | |o]|]; mstep;
    try (eexists; split; [reflexivity|]; mrun; repeat split;
         unfold requests_of; rewrite !flat_map_app; cbn; rewrite !app_nil_r;
         reflexivity).
  destruct (Py.eq_str _ _); cbn [negb orb andb]; mstep.
  2: { eexists; split; [reflexivity|]; mrun; repeat split;
         unfold requests_of; rewrite !flat_map_app; cbn; rewrite !app_nil_r;
         reflexivity. }
  unfold Py.has_key. destruct (Py.lookup _ o); cbn [negb]; mstep.
  all: eexists; split; [reflexivity|]; mrun; repeat split;
         unfold requests_of; rewrite !flat_map_app; cbn; rewrite !app_nil_r;
         reflexivity.
Qed.

End submission.


(** ** Retrieval *)

Section retrieval.

Variables (E : env).

Lemma download_inv clip filename w o w' :
  _download_audio E clip filename w = (o, w') ->
  download_ends E clip filename w o w'.
Proof.
  unfold _download_audio, download_ends, cover_file.
  destruct (Py.truthy (Py.get "audio_url" clip)) eqn:Hau; cbn [negb]; mstep.
  2: { intros [= <- <-]. auto. }
  mgo.
  all: intros [= <- <-]; mrun;
    cbn [audio_path cover_path title tags duration clip_id].
  all: repeat split; auto; try lia.
Qed.


End retrieval.


(** ** Single passes, by what the environment answers *)

Section passes.

Variables (E : env) (cfg : config).
Variables (task_id : json) (max_wait interval start : Z).

#[local] Abbreviation pass := (poll_iteration E cfg task_id max_wait interval start).
#[local] Abbreviation query := (poll_request cfg task_id).

Lemma pass_deadline attempt w :
  max_wait < elapsed_at start w ->
  pass attempt w
  = (Raised (SunoClientError (timeout_msg max_wait task_id)),
     log (EvClock (clock w)) w).
Proof.
  intros Hd%Z.ltb_lt. unfold elapsed_at in Hd. unfold poll_iteration. mstep.
  rewrite Hd. reflexivity.
Qed.





End passes.


(** ** Claims on the polling loop *)

Section polling_claims.

Variables (E : env) (cfg : config).



(** C8, as the code has it.  The check that finds the deadline exceeded
    raises the time-out error, whose message is made of the configured
    max_wait and the job handle: both can be read back from it.  (The
    elapsed time is not part of it.) *)
Theorem timeout_error_carries_handle_and_limit
    task_id max_wait interval start attempt w :
  max_wait < elapsed_at start w ->
  fst (poll_iteration E cfg task_id max_wait interval start attempt w)
  = Raised (SunoClientError (timeout_msg max_wait task_id))
  /\ In (FVal task_id) (timeout_msg max_wait task_id)
  /\ In (FInt max_wait) (timeout_msg max_wait task_id)
  /\ (forall max_wait' task_id',
         timeout_msg max_wait task_id = timeout_msg max_wait' task_id' ->
         max_wait = max_wait' /\ task_id = task_id').
Proof.
  intros Hd. rewrite pass_deadline by exact Hd. split; [reflexivity|].
  unfold timeout_msg. cbn [In]. split; [auto|]. split; [auto|].
  intros mw' t' [= -> ->]. auto.
Qed.

End polling_claims.




(** C8, as stated, fails: two runs that time out after 45 and after 31
    seconds raise the very same error. *)
Lemma timeout_error_forgets_elapsed :
  let r1 := _poll_suno_task (Scenario.env_pending (fun _ => 0%N)) Scenario.cfg0
              10 (Scenario.str "abc123") 30 15 Scenario.w0 in
  let r2 := _poll_suno_task (Scenario.env_pending (fun _ => 600%N)) Scenario.cfg0
              10 (Scenario.str "abc123") 30 15 Scenario.w0 in
  fst r1 = Raised (SunoClientError (timeout_msg 30 (Scenario.str "abc123")))
  /\ fst r2 = fst r1
  /\ elapsed_at 0 (snd r1) = 45
  /\ elapsed_at 0 (snd r2) = 31.
Proof. vm_compute. auto. Qed.

Lemma timeout_error_carries_handle_and_limit_witness :
  fst (poll_iteration (Scenario.env_pending (fun _ => 0%N)) Scenario.cfg0
         (Scenario.str "abc123") 30 15 0 2
         {| clock := 31000; sent := 2; trace := []; files := ∅ |})
  = Raised (SunoClientError (timeout_msg 30 (Scenario.str "abc123"))).
Proof.
  refine (proj1 (timeout_error_carries_handle_and_limit
                   (Scenario.env_pending (fun _ => 0%N)) Scenario.cfg0
                   (Scenario.str "abc123") 30 15 0 2
                   {| clock := 31000; sent := 2; trace := []; files := ∅ |} _)).
  vm_compute. reflexivity.
Defined.


(** ** Claims on submission *)

Section submission_claims.

Variables (E : env) (cfg : config).


(** C10. The submission does not depend on the title nor on the tags: the
    whole run is the same for any two titles and tag lists, and what goes on
    the wire is the one request of the wire protocol, made of the base URL,
    the key, the description and the instrumental flag. *)
Theorem submission_ignores_title_and_tags prompt inst w :
  (forall title1 tags1 title2 tags2,
      _create_suno_task E cfg prompt title1 tags1 inst w
      = _create_suno_task E cfg prompt title2 tags2 inst w)
  /\ (forall title tags,
         requests_of (trace (snd (_create_suno_task E cfg prompt title tags inst w)))
         = requests_of (trace w)
           ++ match API_KEY cfg with
              | [] => []
              | _ => [submission_request cfg prompt inst]
              end).
Proof.
  split; [reflexivity|]. intros title tags.
  destruct (API_KEY cfg) eqn:Hk.
  { rewrite create_no_key by exact Hk. cbn [snd]. rewrite app_nil_r. reflexivity. }
  assert (Hk' : API_KEY cfg <> []) by (rewrite Hk; discriminate).
  destruct (net E (sent w) (submission_request cfg prompt inst))
    as [[e|resp] ms] eqn:Hnet.
  - destruct (create_refused E cfg prompt title tags inst w e ms Hk' Hnet)
      as (w1 & -> & _ & _ & Hreq). exact Hreq.
  - destruct (create_answered E cfg prompt title tags inst w resp ms Hk' Hnet)
      as (w1 & -> & _ & _ & Hreq). exact Hreq.
Qed.

End submission_claims.




(** ** The facade and retrieval *)

Section facade.

Variables (E : env) (cfg : config) (uni_isalnum : N -> bool).

Lemma facade_run fuel prompt title tags inst max_wait interval w :
  generate_music_from_prompt_en E cfg uni_isalnum fuel prompt title tags inst
    max_wait interval w
  = match _create_suno_task E cfg prompt title tags inst w with
    | (Done task_id, w1) =>
        match _poll_suno_task E cfg fuel task_id max_wait interval w1 with
        | (Done clip, w2) =>
            _download_audio E clip (_slugify uni_isalnum title ++ lit ".mp3") w2
        | (Raised e, w2) => (Raised e, w2)
        | (OutOfFuel, w2) => (OutOfFuel, w2)
        end
    | (Raised e, w1) => (Raised e, w1)
    | (OutOfFuel, w1) => (OutOfFuel, w1)
    end.
Proof.
  unfold generate_music_from_prompt_en, bind.
  destruct (_create_suno_task _ _ _ _ _ _ _) as [[tid|e|] w1]; try reflexivity.
  destruct (_poll_suno_task _ _ _ _ _ _ _) as [[clip|e|] w2]; try reflexivity.
  destruct (_download_audio _ _ _ _) as [[r|e|] w3]; reflexivity.
Qed.

Lemma create_files prompt title tags inst w o w' :
  _create_suno_task E cfg prompt title tags inst w = (o, w') ->
  files w' = files w.
Proof.
  destruct (API_KEY cfg) eqn:Hk.
  { rewrite create_no_key by exact Hk. intros [= _ <-]. reflexivity. }
  assert (Hk' : API_KEY cfg <> []) by (rewrite Hk; discriminate).
  destruct (net E (sent w) (submission_request cfg prompt inst))
    as [[e|resp] ms] eqn:Hnet.
  - destruct (create_refused E cfg prompt title tags inst w e ms Hk' Hnet)
      as (w1 & -> & _ & Hf & _). intros [= _ <-]. exact Hf.
  - destruct (create_answered E cfg prompt title tags inst w resp ms Hk' Hnet)
      as (w1 & -> & _ & Hf & _). intros [= _ <-]. exact Hf.
Qed.

Lemma poll_files fuel task_id max_wait interval w o w' :
  _poll_suno_task E cfg fuel task_id max_wait interval w = (o, w') ->
  files w' = files w.
Proof.
  destruct (API_KEY cfg) eqn:Hk.
  { rewrite poll_task_no_key by exact Hk. intros [= _ <-]. reflexivity. }
  rewrite poll_task_run by (rewrite Hk; discriminate). intros Hl.
  destruct (poll_loop_inv _ _ _ _ _ _ _ _ _ _ _ Hl) as (Hf & _). exact Hf.
Qed.

(** The names of the files a successful call reports. *)
Lemma facade_names fuel prompt title tags inst max_wait interval w r w' :
  generate_music_from_prompt_en E cfg uni_isalnum fuel prompt title tags inst
    max_wait interval w = (Done r, w') ->
  audio_path r = OUTPUT_DIR_slash (_slugify uni_isalnum title ++ lit ".mp3")
  /\ (cover_path r = None
      \/ cover_path r
         = Some (OUTPUT_DIR_slash
                   (_slugify uni_isalnum title ++ lit "_cover.jpg"))).
Proof.
  rewrite facade_run.
  destruct (_create_suno_task _ _ _ _ _ _ _) as [[tid|e|] w1]; try discriminate.
  destruct (_poll_suno_task _ _ _ _ _ _ _) as [[clip|e|] w2]; try discriminate.
  intros Hd. apply download_inv in Hd. destruct Hd as (_ & Ha & Hc & _).
  split; [exact Ha|]. unfold cover_file in Hc.
  rewrite cover_name_of_slug in Hc. exact Hc.
Qed.



End facade.


(** ** Claims on retrieval, naming and the error taxonomy *)

Section retrieval_claims.

Variables (E : env) (cfg : config).

(** C7. [_download_audio] raises the missing-artifact error exactly when the
    clip has no usable audio reference (audio_url missing, null or empty:
    falsy), and then nothing has happened yet: the world is the one the call
    started in, no request, no file.  The whole orchestration call fails
    with that same error, no file written. *)
Theorem missing_audio_is_fatal_before_download clip filename w :
  (Py.truthy (Py.get "audio_url" clip) = false ->
   _download_audio E clip filename w
   = (Raised (SunoClientError (no_audio_msg clip)), w))
  /\ (forall msg w',
         _download_audio E clip filename w = (Raised (SunoClientError msg), w') ->
         Py.truthy (Py.get "audio_url" clip) = false
         /\ msg = no_audio_msg clip /\ w' = w)
  /\ (Py.lookup (lit "audio_url") clip = None
      \/ Py.lookup (lit "audio_url") clip = Some JNull
      \/ Py.lookup (lit "audio_url") clip = Some (JStr []) ->
      Py.truthy (Py.get "audio_url" clip) = false)
  /\ (forall c s,
         Py.lookup (lit "audio_url") clip = Some (JStr (c :: s)) ->
         Py.truthy (Py.get "audio_url" clip) = true)
  /\ (forall uni_isalnum fuel prompt title tags inst max_wait interval
             w0 task_id w1,
         _create_suno_task E cfg prompt title tags inst w0 = (Done task_id, w1) ->
         _poll_suno_task E cfg fuel task_id max_wait interval w1 = (Done clip, w) ->
         Py.truthy (Py.get "audio_url" clip) = false ->
         generate_music_from_prompt_en E cfg uni_isalnum fuel prompt title tags
           inst max_wait interval w0
         = (Raised (SunoClientError (no_audio_msg clip)), w)
         /\ files w = files w0).
Proof.
  assert (H1 : Py.truthy (Py.get "audio_url" clip) = false ->
               _download_audio E clip filename w
               = (Raised (SunoClientError (no_audio_msg clip)), w)).
  { intros Hau. unfold _download_audio. rewrite Hau. reflexivity. }
  split; [exact H1|]. split; [|split; [|split]].
  - intros msg w' Hd. apply download_inv in Hd. exact Hd.
  - unfold Py.get. intros [-> | [-> | ->]]; reflexivity.
  - unfold Py.get. intros c s ->. reflexivity.
  - intros uni fuel prompt title tags inst mw iv w0 tid w1 Hc Hp Hau.
    rewrite facade_run, Hc, Hp. split.
    + unfold _download_audio. rewrite Hau. reflexivity.
    + rewrite (poll_files _ _ _ _ _ _ _ _ _ Hp).
      exact (create_files _ _ _ _ _ _ _ _ _ Hc).
Qed.



End retrieval_claims.

(** C5. The file name derived from the title: equal titles give equal
    slugs; the slug is the title with every maximal run of characters
    outside alphanumerics, underscore and hyphen replaced by one underscore
    and the underscores at both ends trimmed, or the default name when that
    is empty; it is never empty, and it is the default name for the empty
    title and for a title of disallowed characters only.  A successful call
    reports the audio file slug.mp3 and, as the cover if there is one,
    slug_cover.jpg. *)
Theorem slug_names_are_deterministic uni_isalnum :
  (forall c, Str.isspace c = true -> uni_isalnum c = false) ->
  (forall title1 title2,
      title1 = title2 -> _slugify uni_isalnum title1 = _slugify uni_isalnum title2)
  /\ (forall title,
         _slugify uni_isalnum title = SlugSpec.spec_slug uni_isalnum title)
  /\ (forall title, exists c s, _slugify uni_isalnum title = c :: s)
  /\ _slugify uni_isalnum [] = lit "hakimi_track"
  /\ (forall title,
         forallb (Re.not_word_or_hyphen uni_isalnum) title = true ->
         _slugify uni_isalnum title = lit "hakimi_track")
  /\ (forall E cfg fuel prompt title tags inst max_wait interval w r w',
         generate_music_from_prompt_en E cfg uni_isalnum fuel prompt title tags
           inst max_wait interval w = (Done r, w') ->
         audio_path r
         = OUTPUT_DIR_slash (_slugify uni_isalnum title ++ lit ".mp3")
         /\ (cover_path r = None
             \/ cover_path r
                = Some (OUTPUT_DIR_slash
                          (_slugify uni_isalnum title ++ lit "_cover.jpg")))).
Proof.
  intros H. split; [|split; [|split; [|split; [|split]]]].
  - intros t1 t2 ->. reflexivity.
  - intros title. apply slugify_spec_slug. exact H.
  - apply slugify_nonempty.
  - reflexivity.
  - apply slugify_all_bad.
  - intros E cfg fuel prompt title tags inst mw iv w r w'. apply facade_names.
Qed.

Lemma slug_names_are_deterministic_witness :
  _slugify Scenario.ascii_only (lit "  Hakimi: Meme/Track!  ")
  = SlugSpec.spec_slug Scenario.ascii_only (lit "  Hakimi: Meme/Track!  ").
Proof.
  refine (proj1 (proj2 (slug_names_are_deterministic Scenario.ascii_only _)) _).
  intros c _. reflexivity.
Defined.




(** * Further properties *)

(** ** The slug and the file names *)

Section slug_extras.

Variable uni_isalnum : N -> bool.

#[local] Abbreviation bad := (Re.not_word_or_hyphen uni_isalnum).
#[local] Abbreviation us := (Str.one_of (lit "_")).
#[local] Abbreviation slug_ch := (slug_char uni_isalnum).

Lemma sub_fixed (s : pystr) :
  forallb slug_ch s = true -> Re.sub_plus bad (lit "_") s = s.
Proof.
  induction s as [|c s IH]; [intros _; apply (sub_nil uni_isalnum)|].
  cbn [forallb]. intros [Hc Hs]%andb_true_iff.
  rewrite (sub_cons_ok uni_isalnum); [f_equal; exact (IH Hs)|].
  apply negb_true_iff. exact Hc.
Qed.

Lemma drop_while_head p (s : pystr) :
  match Str.drop_while p s with
  | c :: _ => p c = false
  | [] => True
  end.
Proof.
  induction s as [|c s IH]; [exact I|].
  simpl. destruct (p c) eqn:Hc; [exact IH|exact Hc].
Qed.

Lemma drop_while_fixed p (s : pystr) :
  match s with c :: _ => p c = false | [] => True end ->
  Str.drop_while p s = s.
Proof. destruct s as [|c s]; [reflexivity|]. simpl. intros ->. reflexivity. Qed.

Lemma lstrip_idem p (s : pystr) :
  Str.lstrip p (Str.lstrip p s) = Str.lstrip p s.
Proof. apply drop_while_fixed, drop_while_head. Qed.

Lemma rstrip_idem p (s : pystr) :
  Str.rstrip p (Str.rstrip p s) = Str.rstrip p s.
Proof.
  unfold Str.rstrip. rewrite rev_involutive.
  f_equal. apply drop_while_fixed, drop_while_head.
Qed.

Lemma strip_idem p (s : pystr) :
  Str.strip p (Str.strip p s) = Str.strip p s.
Proof.
  unfold Str.strip. rewrite lstrip_rstrip, lstrip_idem, rstrip_idem.
  reflexivity.
Qed.

Lemma strip_none p (s : pystr) :
  forallb (fun c => negb (p c)) s = true -> Str.strip p s = s.
Proof.
  intros H. unfold Str.strip, Str.lstrip, Str.rstrip.
  rewrite (drop_while_fixed p s).
  - rewrite drop_while_fixed; [apply rev_involutive|].
    rewrite <- forallb_rev in H. destruct (rev s) as [|c r]; [exact I|].
    cbn [forallb] in H. apply andb_true_iff in H. apply negb_true_iff, H.
  - destruct s as [|c r]; [exact I|].
    cbn [forallb] in H. apply andb_true_iff in H. apply negb_true_iff, H.
Qed.


Lemma strip_ends p (s : pystr) :
  match Str.strip p s with
  | c :: _ => p c = false
  | [] => True
  end
  /\ match last (Str.strip p s) with
     | Some c => p c = false
     | None => True
     end.
Proof.
  split.
  - unfold Str.strip. rewrite <- lstrip_rstrip. apply drop_while_head.
  - unfold Str.strip, Str.rstrip.
    pose proof (drop_while_head p (rev (Str.lstrip p s))) as H.
    destruct (Str.drop_while p (rev (Str.lstrip p s))) as [|c r]; [exact I|].
    cbn [rev]. rewrite last_snoc. exact H.
Qed.

(** What [_slugify] leaves as it is. *)
Lemma slugify_fixed (s : pystr) :
  (forall c, Str.isspace c = true -> uni_isalnum c = false) ->
  s <> [] -> forallb slug_ch s = true -> Str.strip us s = s ->
  _slugify uni_isalnum s = s.
Proof.
  intros H Hne Hs Hu. unfold _slugify.
  rewrite strip_none.
  - destruct s as [|c r]; [contradiction|].
    rewrite (sub_fixed _ Hs), Hu. reflexivity.
  - apply (forallb_impl slug_ch); [|exact Hs].
    intros c Hc. apply negb_true_iff.
    destruct (Str.isspace c) eqn:Hsp; [|reflexivity].
    apply (isspace_bad uni_isalnum c H) in Hsp.
    unfold slug_char in Hc. rewrite Hsp in Hc. discriminate Hc.
Qed.

Lemma slugify_idem title :
  (forall c, Str.isspace c = true -> uni_isalnum c = false) ->
  _slugify uni_isalnum (_slugify uni_isalnum title) = _slugify uni_isalnum title.
Proof.
  intros H.
  assert (Hf : _slugify uni_isalnum fallback_name = fallback_name).
  { apply slugify_fixed; [exact H|discriminate|reflexivity|reflexivity]. }
  pose proof (slugify_chars uni_isalnum title) as Hc.
  unfold _slugify at 2 3. unfold _slugify in Hc.
  destruct (Str.strip Str.isspace title) as [|c t]; [exact Hf|].
  cbv zeta in *.
  destruct (Str.strip us (Re.sub_plus bad (lit "_") (c :: t))) as [|d r] eqn:Hs;
    [exact Hf|].
  apply slugify_fixed; [exact H|discriminate|exact Hc|].
  rewrite <- Hs. apply strip_idem.
Qed.

End slug_extras.

Section name_extras.

Lemma strip_fixed_ends c (s : pystr) :
  PyStr.startswith c s = false -> PyStr.endswith c s = false ->
  Str.strip (Str.one_of [c]) s = s.
Proof.
  intros Hs He. unfold Str.strip, Str.lstrip, Str.rstrip.
  assert (Hone : forall d, (d =? c)%N = false -> Str.one_of [c] d = false).
  { intros d Hd. unfold Str.one_of. cbn. rewrite Hd. reflexivity. }
  rewrite (drop_while_fixed _ s).
  - rewrite drop_while_fixed; [apply rev_involutive|].
    unfold PyStr.endswith in He.
    destruct s as [|a s] using rev_ind; [exact I|].
    rewrite last_snoc in He. rewrite rev_app_distr. cbn. apply Hone, He.
  - destruct s as [|a s]; [exact I|]. apply Hone, Hs.
Qed.

Lemma rsplit1_head_split sep (base ext : pystr) :
  PyStr.contains sep ext = false ->
  Str.rsplit1_head sep (base ++ sep :: ext) = base.
Proof.
  unfold PyStr.contains. intros He. induction base as [|c b IH]; cbn.
  - rewrite He, N.eqb_refl. reflexivity.
  - rewrite existsb_app. cbn. rewrite N.eqb_refl, orb_true_r. cbn.
    f_equal. exact IH.
Qed.

Lemma rsplit1_head_none sep (s : pystr) :
  PyStr.contains sep s = false -> Str.rsplit1_head sep s = s.
Proof.
  unfold PyStr.contains. destruct s as [|c s]; [reflexivity|]. cbn.
  intros [Hc Hs]%orb_false_iff. rewrite Hs, N.eqb_sym, Hc. reflexivity.
Qed.

End name_extras.

(** X1. [_slugify] is idempotent: the slug of a slug is that slug.  More
    generally, a non-empty string of word characters and hyphens that
    neither starts nor ends with an underscore is its own slug. *)
Theorem slugify_is_idempotent uni_isalnum :
  (forall c, Str.isspace c = true -> uni_isalnum c = false) ->
  (forall title,
      _slugify uni_isalnum (_slugify uni_isalnum title)
      = _slugify uni_isalnum title)
  /\ (forall s,
         s <> [] -> forallb (slug_char uni_isalnum) s = true ->
         PyStr.startswith 95 s = false -> PyStr.endswith 95 s = false ->
         _slugify uni_isalnum s = s).
Proof.
  intros H. split.
  - intros title. apply slugify_idem. exact H.
  - intros s Hne Hc Hs He. apply slugify_fixed; auto.
    apply (strip_fixed_ends 95%N); assumption.
Qed.

Lemma slugify_is_idempotent_witness :
  _slugify Scenario.ascii_only
    (_slugify Scenario.ascii_only (lit "  Hakimi: Meme/Track!  "))
  = _slugify Scenario.ascii_only (lit "  Hakimi: Meme/Track!  ").
Proof.
  refine (proj1 (slugify_is_idempotent Scenario.ascii_only _) _).
  intros c _. reflexivity.
Defined.

(** X2. A slug is a safe file name: every character of it is a word
    character or a hyphen, so that an ASCII character of it is a letter, a
    digit, an underscore or a hyphen; it holds no slash, backslash, dot or
    null character, and it neither starts nor ends with an underscore. *)
Theorem slug_is_a_safe_file_name uni_isalnum title :
  let slug := _slugify uni_isalnum title in
  forallb (slug_char uni_isalnum) slug = true
  /\ forallb (fun c => (128 <=? c)%N || Re.ascii_isalnum c
                       || (c =? 95)%N || (c =? 45)%N) slug = true
  /\ PyStr.contains 47 slug = false
  /\ PyStr.contains 92 slug = false
  /\ PyStr.contains 46 slug = false
  /\ PyStr.contains 0 slug = false
  /\ PyStr.startswith 95 slug = false
  /\ PyStr.endswith 95 slug = false.
Proof.
  intros slug. pose proof (slugify_chars uni_isalnum title) as Hc.
  fold slug in Hc.
  assert (Hno : forall d, slug_char uni_isalnum d = false ->
                          PyStr.contains d slug = false).
  { intros d Hd. unfold PyStr.contains.
    destruct (existsb (N.eqb d) slug) eqn:Hex; [|reflexivity].
    apply existsb_exists in Hex. destruct Hex as (x & Hin & ->%N.eqb_eq).
    rewrite forallb_forall in Hc. rewrite (Hc _ Hin) in Hd. discriminate Hd. }
  split; [exact Hc|]. split.
  { apply (forallb_impl (slug_char uni_isalnum)); [|exact Hc].
    intros c. unfold slug_char, Re.not_word_or_hyphen, Re.is_word, Re.isalnum.
    rewrite negb_involutive. rewrite N.leb_antisym.
    destruct (c <? 128)%N; cbn [negb orb]; [|reflexivity].
    intros ->. reflexivity. }
  split; [apply Hno; reflexivity|]. split; [apply Hno; reflexivity|].
  split; [apply Hno; reflexivity|]. split; [apply Hno; reflexivity|].
  subst slug. unfold _slugify.
  destruct (Str.strip Str.isspace title) as [|c t]; [split; reflexivity|].
  cbv zeta.
  destruct (strip_ends (Str.one_of (lit "_"))
              (Re.sub_plus (Re.not_word_or_hyphen uni_isalnum) (lit "_") (c :: t)))
    as [Hh Hl].
  destruct (Str.strip (Str.one_of (lit "_")) _) as [|d r];
    [split; reflexivity|].
  unfold PyStr.startswith, PyStr.endswith. split.
  - unfold Str.one_of in Hh. cbn in Hh. rewrite orb_false_r in Hh. exact Hh.
  - destruct (last (d :: r)) as [x|]; [|reflexivity].
    unfold Str.one_of in Hl. cbn in Hl. rewrite orb_false_r in Hl. exact Hl.
Qed.

(** X7. The cover file name replaces the extension: for [base.ext] with no
    dot in [ext] it is [base_cover.jpg]; a name without a dot is kept whole
    before [_cover.jpg]; and it is never the name of the audio file. *)
Theorem cover_name_replaces_the_extension base ext :
  PyStr.contains 46 ext = false ->
  cover_file (base ++ lit "." ++ ext) = OUTPUT_DIR_slash (base ++ lit "_cover.jpg")
  /\ cover_file ext = OUTPUT_DIR_slash (ext ++ lit "_cover.jpg")
  /\ (forall filename, cover_file filename <> OUTPUT_DIR_slash filename).
Proof.
  intros He. unfold cover_file. split; [|split].
  - change (lit "." ++ ext) with (46%N :: ext).
    rewrite rsplit1_head_split by exact He. reflexivity.
  - rewrite rsplit1_head_none by exact He. reflexivity.
  - intros filename [= Heq]. exact (cover_name_differs filename Heq).
Qed.

Lemma cover_name_replaces_the_extension_witness :
  cover_file (lit "Hakimi_Meme_Track" ++ lit "." ++ lit "mp3")
  = OUTPUT_DIR_slash (lit "Hakimi_Meme_Track" ++ lit "_cover.jpg").
Proof.
  refine (proj1 (cover_name_replaces_the_extension
                   (lit "Hakimi_Meme_Track") (lit "mp3") _)).
  reflexivity.
Defined.

(** ** Requests of the polling loop *)

Ltac requests_norm :=
  unfold requests_of; rewrite ?flat_map_app; cbn [flat_map app];
  rewrite ?app_nil_r, <- ?app_assoc; cbn [app].

Section request_facts.

Lemma requests_of_app evs1 evs2 :
  requests_of (evs1 ++ evs2) = requests_of evs1 ++ requests_of evs2.
Proof. apply flat_map_app. Qed.

Lemma requests_of_log e w :
  requests_of (trace (log e w))
  = requests_of (trace w) ++ match e with EvRequest r => [r] | _ => [] end.
Proof. cbn [log trace]. rewrite requests_of_app. cbn. rewrite app_nil_r. reflexivity. Qed.

End request_facts.

Section poll_requests.

Variables (E : env) (cfg : config).
Variables (task_id : json) (max_wait interval start : Z).

#[local] Abbreviation body := (poll_iteration E cfg task_id max_wait interval start).
#[local] Abbreviation loop := (poll_loop E cfg).
#[local] Abbreviation query := (poll_request cfg task_id).

Lemma poll_iteration_requests attempt w o w' :
  body attempt w = (o, w') ->
  requests_of (trace w')
  = requests_of (trace w) ++ repeat query (sent w' - sent w).
Proof.
  unfold poll_iteration. mstep.
  destruct (max_wait <? (clock w - start) ÷ 1000) eqn:Hd.
  { mstep. intros [= <- <-]. mrun. rewrite Nat.sub_diag. requests_norm.
    reflexivity. }
  mstep.
  destruct (net E (sent w) query) as [[e|resp] ms] eqn:Hnet; mrun.
  all: mgo.
  all: intros [= <- <-]; mrun.
  all: replace (S (sent w) - sent w)%nat with 1%nat by lia.
  all: requests_norm; reflexivity.
Qed.

Lemma poll_loop_requests fuel : forall attempt w o w',
  loop fuel task_id max_wait interval start attempt w = (o, w') ->
  requests_of (trace w')
  = requests_of (trace w) ++ repeat query (sent w' - sent w)
  /\ match o with Done _ => (sent w < sent w')%nat | _ => True end.
Proof.
  induction fuel as [|fuel IH]; intros attempt w o w'.
  { intros [= <- <-]. rewrite Nat.sub_diag, app_nil_r. auto. }
  rewrite poll_loop_S.
  destruct (body attempt w) as [o1 w1] eqn:Hb.
  pose proof (poll_iteration_requests _ _ _ _ Hb) as Hr.
  destruct (poll_iteration_inv _ _ _ _ _ _ _ _ _ _ Hb) as (_ & _ & Ho).
  destruct o1 as [[c|]|e|]; [| |intros [= <- <-]|contradiction].
  - intros [= <- <-]. split; [exact Hr|]. destruct Ho as (_ & _ & ->). lia.
  - intros Hl. destruct (IH _ _ _ _ Hl) as (Hr' & Ho').
    destruct (poll_loop_inv _ _ _ _ _ _ _ _ _ _ _ Hl) as (_ & _ & Hs' & _).
    destruct Ho as (_ & _ & Hsent & _). split.
    + rewrite Hr', Hr, <- app_assoc, <- repeat_app. do 2 f_equal. lia.
    + destruct o; auto. lia.
  - split; [exact Hr|exact I].
Qed.


End poll_requests.

Section poll_extras.

Variables (E : env) (cfg : config).

Lemma poll_task_requests fuel task_id max_wait interval w o w' :
  _poll_suno_task E cfg fuel task_id max_wait interval w = (o, w') ->
  requests_of (trace w')
  = requests_of (trace w) ++ repeat (poll_request cfg task_id) (sent w' - sent w)
  /\ (sent w <= sent w')%nat
  /\ match o with Done _ => (sent w < sent w')%nat | _ => True end.
Proof.
  destruct (API_KEY cfg) eqn:Hk.
  { rewrite poll_task_no_key by exact Hk. intros [= <- <-].
    rewrite Nat.sub_diag, app_nil_r. auto. }
  rewrite poll_task_run by (rewrite Hk; discriminate). intros Hl.
  destruct (poll_loop_requests _ _ _ _ _ _ _ _ _ _ _ Hl) as (Hr & Ho).
  destruct (poll_loop_inv _ _ _ _ _ _ _ _ _ _ _ Hl) as (_ & _ & Hs & _).
  rewrite requests_of_log, app_nil_r in Hr. cbn [sent log] in *. auto.
Qed.

(** X4. Polling sends nothing but the status query of the task, the same
    request each time, as often as the request counter says; it writes no
    file, and it returns no clip without having sent a request. *)
Theorem polling_sends_only_status_queries fuel task_id max_wait interval w :
  let r := _poll_suno_task E cfg fuel task_id max_wait interval w in
  requests_of (trace (snd r))
  = requests_of (trace w)
    ++ repeat (poll_request cfg task_id) (sent (snd r) - sent w)
  /\ (sent w <= sent (snd r))%nat
  /\ files (snd r) = files w
  /\ match fst r with
     | Done _ => (sent w < sent (snd r))%nat
     | _ => True
     end.
Proof.
  intros r. destruct r as [o w'] eqn:Hr. cbn [fst snd].
  destruct (poll_task_requests _ _ _ _ _ _ _ Hr) as (H1 & H2 & H3).
  pose proof (poll_files _ _ _ _ _ _ _ _ _ Hr). auto.
Qed.




End poll_extras.



(** ** Files and requests of a whole call *)

Section download_facts.

Variable E : env.



End download_facts.

Section facade_extras.

Variables (E : env) (cfg : config) (uni_isalnum : N -> bool).





Lemma facade_no_key fuel prompt ttl tgs inst max_wait interval w :
  API_KEY cfg = [] ->
  generate_music_from_prompt_en E cfg uni_isalnum fuel prompt ttl tgs inst
    max_wait interval w
  = (Raised (SunoClientError missing_key_msg), w).
Proof.
  intros Hk. rewrite facade_run, create_no_key by exact Hk. reflexivity.
Qed.

End facade_extras.


(** ** The [.env] file *)

Section env_file_facts.

Lemma load_lookup lines : forall env env',
  Config._load_env_file lines env = (None, env') ->
  forall name,
    env' !! name
    = match Config.assigned name lines with
      | Some value => Some value
      | None => env !! name
      end.
Proof.
  induction lines as [|line lines IH]; intros env env'.
  { intros [= <-] name. reflexivity. }
  cbn [Config._load_env_file Config.assigned].
  destruct (Config.env_line line) as [[key value]|].
  - unfold Config.setenv. destruct (_ || _); [discriminate|].
    intros Hl name. rewrite (IH _ _ Hl name).
    destruct (Config.assigned name lines); [reflexivity|].
    destruct (bool_decide_reflect (name = key)) as [->|Hne].
    + apply lookup_insert_eq.
    + apply lookup_insert_ne. congruence.
  - intros Hl name. rewrite (IH _ _ Hl name).
    destruct (Config.assigned name lines); reflexivity.
Qed.


End env_file_facts.

(** X10. When [_load_env_file] runs through, a variable has the value
    that the last line setting it gives, whatever the process environment
    held before, and a variable that no line sets keeps its value: the
    [.env] file takes precedence over the environment. *)
Theorem env_file_takes_precedence lines env env' :
  Config._load_env_file lines env = (None, env') ->
  forall name,
    env' !! name
    = match Config.assigned name lines with
      | Some value => Some value
      | None => env !! name
      end.
Proof. apply load_lookup. Qed.

Lemma env_file_takes_precedence_witness :
  snd (Config._load_env_file
         [lit "SUNO_API_KEY=old"; lit "# a comment"; lit "SUNO_API_KEY = new"]
         (<[lit "SUNO_API_KEY" := lit "process"]> (<[lit "HOME" := lit "/root"]> ∅)))
  !! lit "SUNO_API_KEY" = Some (lit "new").
Proof.
  destruct (Config._load_env_file _ _) as [raised env'] eqn:Hl.
  assert (Hr : raised = None).
  { pose proof (f_equal fst Hl) as Hf. cbn [fst] in Hf. rewrite <- Hf.
    vm_compute. reflexivity. }
  subst raised. cbn [snd].
  rewrite (env_file_takes_precedence _ _ _ Hl). reflexivity.
Defined.

Section env_line_facts.

Lemma drop_while_app_all p (a t : pystr) :
  forallb p a = true -> Str.drop_while p (a ++ t) = Str.drop_while p t.
Proof.
  induction a as [|c a IH]; [reflexivity|].
  cbn. intros [-> Ha]%andb_true_iff. exact (IH Ha).
Qed.

(** Stripping takes the white space around a string that neither starts
    nor ends with any. *)
Lemma strip_around p (a s b : pystr) :
  forallb p a = true -> forallb p b = true ->
  Str.strip p s = s ->
  Str.strip p (a ++ s ++ b) = s.
Proof.
  intros Ha Hb Hs.
  destruct (strip_ends p s) as [Hh Hl]. rewrite Hs in Hh, Hl.
  unfold Str.strip, Str.lstrip, Str.rstrip.
  rewrite (drop_while_app_all p a _ Ha).
  destruct s as [|c s]; cbn [app].
  { pose proof (lstrip_all p b Hb) as Hb'. unfold Str.lstrip in Hb'.
    rewrite Hb'. reflexivity. }
  cbn [Str.drop_while]. rewrite Hh.
  change (c :: s ++ b) with ((c :: s) ++ b). rewrite rev_app_distr.
  rewrite drop_while_app_all by (rewrite forallb_rev; exact Hb).
  rewrite drop_while_fixed; [apply rev_involutive|].
  destruct (c :: s) as [|d r] using rev_ind; [exact I|].
  rewrite last_snoc in Hl. rewrite rev_app_distr. exact Hl.
Qed.

Lemma contains_app c (a b : pystr) :
  PyStr.contains c (a ++ b) = PyStr.contains c a || PyStr.contains c b.
Proof. apply existsb_app. Qed.

Lemma contains_none p c (s : pystr) :
  p c = false -> forallb p s = true -> PyStr.contains c s = false.
Proof.
  intros Hc. unfold PyStr.contains.
  induction s as [|d s IH]; [reflexivity|].
  cbn [existsb forallb]. intros [Hd Hs]%andb_true_iff.
  rewrite (IH Hs), orb_false_r.
  destruct (N.eqb_spec c d) as [->|]; [congruence|reflexivity].
Qed.

Lemma split1_app sep (a b : pystr) :
  PyStr.contains sep a = false ->
  PyStr.split1 sep (a ++ sep :: b) = Some (a, b).
Proof.
  unfold PyStr.contains.
  induction a as [|c a IH]; cbn [existsb app PyStr.split1].
  - rewrite N.eqb_refl. reflexivity.
  - intros [Hc Ha]%orb_false_iff. rewrite N.eqb_sym, Hc, (IH Ha). reflexivity.
Qed.

Lemma well_formed_key_spec key :
  well_formed_key key = true ->
  key <> [] /\ Str.strip Str.isspace key = key
  /\ PyStr.startswith 35 key = false /\ PyStr.contains 61 key = false.
Proof.
  unfold well_formed_key.
  rewrite !andb_true_iff, !negb_true_iff, !bool_decide_eq_true. tauto.
Qed.

(** A stripped line [key = rest] sets [key] to the stripped [rest], its
    quotes taken off. *)
Lemma env_line_stripped line key ws rest :
  well_formed_key key = true -> forallb Str.isspace ws = true ->
  Str.strip Str.isspace line = key ++ ws ++ 61%N :: rest ->
  Config.env_line line
  = Some (key,
          let value := Str.strip Str.isspace rest in
          if PyStr.startswith 34 value && PyStr.endswith 34 value
          then PyStr.slice_1_m1 value
          else if PyStr.startswith 39 value && PyStr.endswith 39 value
          then PyStr.slice_1_m1 value
          else value).
Proof.
  intros (Hne & Hk & Hc & He)%well_formed_key_spec Hws Hl.
  unfold Config.env_line. rewrite Hl.
  cbv zeta. destruct key as [|c key]; [contradiction|].
  cbn [app orb]. cbn [PyStr.startswith] in *. rewrite Hc.
  change (c :: key ++ ws ++ 61%N :: rest)
    with ((c :: key) ++ ws ++ 61%N :: rest).
  rewrite app_assoc.
  replace (PyStr.contains 61 (((c :: key) ++ ws) ++ 61%N :: rest)) with true
    by (rewrite contains_app; cbn; rewrite orb_true_r; reflexivity).
  rewrite split1_app.
  2: { rewrite contains_app, He.
       apply (contains_none Str.isspace); [reflexivity|exact Hws]. }
  replace (Str.strip Str.isspace ((c :: key) ++ ws)) with (c :: key);
    [reflexivity|].
  symmetry. apply (strip_around Str.isspace [] (c :: key) ws); auto.
Qed.

End env_line_facts.

Section env_file_claims.

Lemma forallb_app4 (p : N -> bool) (a b c d : pystr) :
  forallb p (a ++ b ++ c ++ d) = true ->
  forallb p a = true /\ forallb p b = true /\ forallb p c = true
  /\ forallb p d = true.
Proof. rewrite !forallb_app, !andb_true_iff. tauto. Qed.

Lemma strip_fixed p (s : pystr) :
  match s with c :: _ => p c = false | [] => True end ->
  match last s with Some c => p c = false | None => True end ->
  Str.strip p s = s.
Proof.
  intros Hh Hl. unfold Str.strip, Str.lstrip, Str.rstrip.
  rewrite (drop_while_fixed p s Hh).
  rewrite drop_while_fixed; [apply rev_involutive|].
  destruct s as [|d r] using rev_ind; [exact I|].
  rewrite last_snoc in Hl. rewrite rev_app_distr. exact Hl.
Qed.

Lemma strip_fixed_app p (s m t : pystr) :
  s <> [] -> t <> [] -> Str.strip p s = s -> Str.strip p t = t ->
  Str.strip p (s ++ m ++ t) = s ++ m ++ t.
Proof.
  intros Hs Ht Hss Hst.
  destruct (strip_ends p s) as [Hh _]. rewrite Hss in Hh.
  destruct (strip_ends p t) as [_ Hl]. rewrite Hst in Hl.
  apply strip_fixed.
  - destruct s; [contradiction|exact Hh].
  - destruct t as [|d r] using rev_ind; [contradiction|].
    rewrite !app_assoc, last_snoc. rewrite last_snoc in Hl. exact Hl.
Qed.

(** X11. A value in double or in single quotes is read back exactly as it
    stands between the quotes (white space, [=] and [#] included), with any
    white space around the key, around the [=] and after the closing
    quote. *)
Theorem quoted_value_is_read_back key value q ws1 ws2 ws3 ws4 :
  q = 34%N \/ q = 39%N ->
  well_formed_key key = true ->
  forallb Str.isspace (ws1 ++ ws2 ++ ws3 ++ ws4) = true ->
  Config.env_line
    (ws1 ++ key ++ ws2 ++ lit "=" ++ ws3 ++ q :: value ++ q :: ws4)
  = Some (key, value).
Proof.
  intros Hq Hk (H1 & H2 & H3 & H4)%forallb_app4.
  destruct (well_formed_key_spec key Hk) as (Hne & Hkey & _).
  assert (Hsp : Str.isspace q = false) by (destruct Hq as [-> | ->]; reflexivity).
  assert (Hquoted : Str.strip Str.isspace (q :: value ++ [q]) = q :: value ++ [q]).
  { apply strip_fixed; [exact Hsp|].
    rewrite app_comm_cons, last_snoc. exact Hsp. }
  rewrite (env_line_stripped _ key ws2 (ws3 ++ q :: value ++ [q]) Hk H2).
  - replace (ws3 ++ q :: value ++ [q])
      with (ws3 ++ (q :: value ++ [q]) ++ [])
      by (rewrite app_nil_r; reflexivity).
    cbv zeta.
    rewrite (strip_around Str.isspace ws3 _ [] H3 eq_refl Hquoted).
    unfold PyStr.startswith, PyStr.endswith, PyStr.slice_1_m1.
    rewrite app_comm_cons, last_snoc. cbn [tl app].
    rewrite removelast_last.
    destruct Hq as [-> | ->]; reflexivity.
  - replace (ws1 ++ key ++ ws2 ++ lit "=" ++ ws3 ++ q :: value ++ q :: ws4)
      with (ws1 ++ (key ++ (ws2 ++ 61%N :: ws3) ++ q :: value ++ [q]) ++ ws4).
    2: { cbn. rewrite <- !app_assoc. cbn. rewrite <- !app_assoc. reflexivity. }
    rewrite (strip_around _ _ _ _ H1 H4).
    + rewrite <- !app_assoc. reflexivity.
    + apply strip_fixed_app; [exact Hne|discriminate|exact Hkey|exact Hquoted].
Qed.

(** X13. A value without quotes is kept verbatim, apart from the white
    space around it: a [#] or a further [=] inside it is part of the value,
    and nothing after the [=] gives the empty string. *)
Theorem bare_value_is_kept_verbatim key value ws1 ws2 ws3 ws4 :
  well_formed_key key = true ->
  Str.strip Str.isspace value = value ->
  PyStr.startswith 34 value && PyStr.endswith 34 value = false ->
  PyStr.startswith 39 value && PyStr.endswith 39 value = false ->
  forallb Str.isspace (ws1 ++ ws2 ++ ws3 ++ ws4) = true ->
  Config.env_line (ws1 ++ key ++ ws2 ++ lit "=" ++ ws3 ++ value ++ ws4)
  = Some (key, value).
Proof.
  intros Hk Hv Hq2 Hq1 (H1 & H2 & H3 & H4)%forallb_app4.
  destruct (well_formed_key_spec key Hk) as (Hne & Hkey & _).
  rewrite (env_line_stripped _ key ws2
             (if value is [] then [] else ws3 ++ value) Hk H2).
  - cbv zeta.
    replace (Str.strip Str.isspace (if value is [] then [] else ws3 ++ value))
      with value.
    + rewrite Hq2, Hq1. reflexivity.
    + destruct value as [|c v]; [reflexivity|]. symmetry.
      rewrite <- (app_nil_r (c :: v)) at 1.
      apply (strip_around _ ws3 (c :: v) []); auto.
  - destruct value as [|c v].
    + replace (ws1 ++ key ++ ws2 ++ lit "=" ++ ws3 ++ [] ++ ws4)
        with (ws1 ++ (key ++ ws2 ++ [61%N]) ++ ws3 ++ ws4)
        by (cbn; rewrite <- !app_assoc; reflexivity).
      rewrite strip_around; [reflexivity|exact H1| |].
      * rewrite forallb_app, H3, H4. reflexivity.
      * apply strip_fixed_app; [exact Hne|discriminate|exact Hkey|reflexivity].
    + replace (ws1 ++ key ++ ws2 ++ lit "=" ++ ws3 ++ (c :: v) ++ ws4)
        with (ws1 ++ (key ++ (ws2 ++ 61%N :: ws3) ++ c :: v) ++ ws4)
        by (cbn; rewrite <- !app_assoc; reflexivity).
      rewrite (strip_around _ _ _ _ H1 H4).
      * rewrite <- !app_assoc. reflexivity.
      * apply strip_fixed_app; [exact Hne|discriminate|exact Hkey|exact Hv].
Qed.


End env_file_claims.

Lemma quoted_value_is_read_back_witness :
  Config.env_line (lit "  SUNO_API_KEY = " ++ 34%N :: lit " a=b #c " ++ 34%N :: [10%N])
  = Some (lit "SUNO_API_KEY", lit " a=b #c ").
Proof.
  refine (quoted_value_is_read_back (lit "SUNO_API_KEY") (lit " a=b #c ") 34
            (lit "  ") (lit " ") (lit " ") [10%N] _ _ _).
  - left. reflexivity.
  - reflexivity.
  - reflexivity.
Defined.

Lemma bare_value_is_kept_verbatim_witness :
  Config.env_line (lit "FFMPEG_PATH=/opt/ffmpeg/bin/ffmpeg -y #x" ++ [13%N; 10%N])
  = Some (lit "FFMPEG_PATH", lit "/opt/ffmpeg/bin/ffmpeg -y #x").
Proof.
  refine (bare_value_is_kept_verbatim (lit "FFMPEG_PATH")
            (lit "/opt/ffmpeg/bin/ffmpeg -y #x") [] [] [] [13%N; 10%N] _ _ _ _ _);
    reflexivity.
Defined.


Section skipped_lines.

Lemma contains_forallb c (s : pystr) :
  PyStr.contains c s = false <-> forallb (fun d => negb (c =? d)%N) s = true.
Proof.
  unfold PyStr.contains. induction s as [|d s IH]; [tauto|].
  cbn [existsb forallb]. rewrite orb_false_iff, andb_true_iff, negb_true_iff, IH.
  tauto.
Qed.

Lemma env_line_comment ws rest :
  forallb Str.isspace ws = true -> Config.env_line (ws ++ 35%N :: rest) = None.
Proof.
  intros Hws. unfold Config.env_line.
  replace (Str.strip Str.isspace (ws ++ 35%N :: rest))
    with (Str.rstrip Str.isspace (35%N :: rest)).
  - rewrite rstrip_cons. cbv zeta.
    destruct (Str.rstrip Str.isspace rest); reflexivity.
  - unfold Str.strip, Str.lstrip. rewrite (drop_while_app_all _ _ _ Hws).
    reflexivity.
Qed.

Lemma env_line_blank ws :
  forallb Str.isspace ws = true -> Config.env_line ws = None.
Proof.
  intros Hws. unfold Config.env_line, Str.strip.
  rewrite (lstrip_all _ _ Hws). reflexivity.
Qed.

Lemma env_line_no_equals line :
  PyStr.contains 61 line = false -> Config.env_line line = None.
Proof.
  intros Hc. unfold Config.env_line. cbv zeta.
  destruct (_ || _); [reflexivity|].
  replace (PyStr.contains 61 (Str.strip Str.isspace line)) with false;
    [reflexivity|].
  symmetry. apply contains_forallb, forallb_strip, contains_forallb, Hc.
Qed.

Lemma load_skip line before : forall after env,
  Config.env_line line = None ->
  Config._load_env_file (before ++ line :: after) env
  = Config._load_env_file (before ++ after) env.
Proof.
  induction before as [|l before IH]; intros after env Hl; cbn.
  - rewrite Hl. reflexivity.
  - destruct (Config.env_line l) as [[k v]|]; [|apply IH, Hl].
    destruct (Config.setenv k v env); [reflexivity|apply IH, Hl].
Qed.

(** X16. A line whose first character after leading white space is [#], a
    blank line and a line without [=] set nothing, and the load goes as if
    such a line were not in the file. *)
Theorem comments_and_lines_without_equals_set_nothing ws rest :
  forallb Str.isspace ws = true ->
  Config.env_line (ws ++ lit "#" ++ rest) = None
  /\ Config.env_line ws = None
  /\ (forall line, PyStr.contains 61 line = false -> Config.env_line line = None)
  /\ (forall line before after env,
         Config.env_line line = None ->
         Config._load_env_file (before ++ line :: after) env
         = Config._load_env_file (before ++ after) env).
Proof.
  intros Hws. split; [apply env_line_comment, Hws|].
  split; [apply env_line_blank, Hws|]. split; [apply env_line_no_equals|].
  intros line before after env. apply load_skip.
Qed.

End skipped_lines.

Lemma comments_and_lines_without_equals_set_nothing_witness :
  Config.env_line (lit "  " ++ lit "#" ++ lit " HF_TOKEN=your_huggingface_token_here")
  = None.
Proof.
  refine (proj1 (comments_and_lines_without_equals_set_nothing (lit "  ")
                   (lit " HF_TOKEN=your_huggingface_token_here") _)).
  reflexivity.
Defined.

(** ** Where the key comes from *)

Section key_facts.

Variables (E : env) (cfg : config).

Lemma poll_iteration_not_config task_id max_wait interval start attempt w e w' :
  poll_iteration E cfg task_id max_wait interval start attempt w = (Raised e, w') ->
  is_configuration_error e = false.
Proof.
  unfold poll_iteration. mstep.
  destruct (max_wait <? (clock w - start) ÷ 1000) eqn:Hd.
  { mstep. intros [= <- _]. reflexivity. }
  mstep.
  destruct (net E (sent w) (poll_request cfg task_id)) as [[e0|resp] ms]; mrun.
  all: mgo.
  all: intros [= <- _]; reflexivity.
Qed.

Lemma poll_loop_not_config task_id max_wait interval start fuel :
  forall attempt w e w',
    poll_loop E cfg fuel task_id max_wait interval start attempt w
    = (Raised e, w') ->
    is_configuration_error e = false.
Proof.
  induction fuel as [|fuel IH]; intros attempt w e w'; [discriminate|].
  rewrite poll_loop_S.
  destruct (poll_iteration _ _ _ _ _ _ _ _) as [[[c|]|e1|] w1] eqn:Hb;
    try discriminate.
  - apply IH.
  - intros [= <- _]. exact (poll_iteration_not_config _ _ _ _ _ _ _ _ Hb).
Qed.

Lemma create_not_config prompt ttl tgs inst w e w' :
  API_KEY cfg <> [] ->
  _create_suno_task E cfg prompt ttl tgs inst w = (Raised e, w') ->
  is_configuration_error e = false.
Proof.
  intros Hk.
  destruct (net E (sent w) (submission_request cfg prompt inst))
    as [[e0|resp] ms] eqn:Hnet.
  - destruct (create_refused E cfg prompt ttl tgs inst w e0 ms Hk Hnet)
      as (w1 & -> & _). intros [= <- _]. reflexivity.
  - destruct (create_answered E cfg prompt ttl tgs inst w resp ms Hk Hnet)
      as (w1 & -> & _).
    destruct (status_passes resp); [|intros [= <- _]; reflexivity].
    destruct (json_body resp) as [[| | | | | |o]|];
      try (intros [= <- _]; reflexivity).
    destruct (_ && _); [|intros [= <- _]; reflexivity].
    destruct (Py.lookup _ o); [discriminate|intros [= <- _]; reflexivity].
Qed.

End key_facts.

Section key_claims.

Variables (E : env) (cfg : config) (uni_isalnum : N -> bool).

Lemma facade_not_config fuel prompt ttl tgs inst max_wait interval w e :
  API_KEY cfg <> [] ->
  fst (generate_music_from_prompt_en E cfg uni_isalnum fuel prompt ttl tgs
         inst max_wait interval w) = Raised e ->
  is_configuration_error e = false.
Proof.
  intros Hk. rewrite facade_run.
  destruct (_create_suno_task _ _ _ _ _ _ _) as [[tid|e1|] w1] eqn:Hc;
    cbn [fst]; [| |discriminate].
  2: { intros [= <-]. exact (create_not_config _ _ _ _ _ _ _ _ _ Hk Hc). }
  rewrite poll_task_run by exact Hk.
  destruct (poll_loop _ _ _ _ _ _ _ _ _) as [[clip|e2|] w2] eqn:Hp;
    cbn [fst]; [| |discriminate].
  2: { intros [= <-]. exact (poll_loop_not_config _ _ _ _ _ _ _ _ _ _ _ Hp). }
  destruct (_download_audio _ _ _ _) as [o3 w3] eqn:Hd.
  cbn [fst]. intros ->. apply download_inv in Hd.
  destruct e as [msg|f]; [|reflexivity].
  destruct Hd as (_ & -> & _). reflexivity.
Qed.

(** X9. A call fails with the configuration error exactly when the key is
    empty; it then fails at once, with nothing printed, sent or written. *)
Theorem configuration_error_iff_no_key
    fuel prompt ttl tgs inst max_wait interval w :
  let r := generate_music_from_prompt_en E cfg uni_isalnum fuel prompt ttl tgs
             inst max_wait interval w in
  (API_KEY cfg = [] -> r = (Raised (SunoClientError missing_key_msg), w))
  /\ is_configuration_error (SunoClientError missing_key_msg) = true
  /\ (forall e, fst r = Raised e -> is_configuration_error e = true ->
      API_KEY cfg = []).
Proof.
  intros r. split; [|split; [reflexivity|]].
  - intros Hk. apply facade_no_key. exact Hk.
  - intros e Hr He. destruct (API_KEY cfg) eqn:Hk; [reflexivity|exfalso].
    assert (Hk' : API_KEY cfg <> []) by (rewrite Hk; discriminate).
    rewrite (facade_not_config _ _ _ _ _ _ _ _ _ Hk' Hr) in He. discriminate He.
Qed.

End key_claims.

Section settings_claims.

Lemma load_config_key env_file env c env' :
  Config._load_config env_file env = (inr c, env') ->
  API_KEY (module_config c)
  = match Config.assigned (lit "SUNO_API_KEY")
            (match env_file with Some lines => lines | None => [] end) with
    | Some value => value
    | None => match env !! lit "SUNO_API_KEY" with
              | Some value => value
              | None => []
              end
    end.
Proof.
  unfold Config._load_config.
  destruct (match env_file with
            | Some lines => Config._load_env_file lines env
            | None => (None, env)
            end) as [raised env1] eqn:Hl.
  destruct raised; [discriminate|]. intros [= <- <-].
  cbn [module_config API_KEY Config.get_suno_api_key Config.SUNO_API_KEY].
  unfold Config.getenv.
  destruct env_file as [lines|].
  - rewrite (load_lookup _ _ _ Hl).
    destruct (Config.assigned _ lines); [reflexivity|].
    destruct (env !! _); reflexivity.
  - injection Hl as <-. reflexivity.
Qed.

(** X14. The key [suno_client] uses comes from [SUNO_API_KEY] and from
    nothing else: it is the value of the last line of [.env] setting that
    name, else the value in the process environment, else empty.  When it
    is empty every call fails with the configuration error before anything
    happens, whatever other variables are set; when it is not, the key
    check passes. *)
Theorem api_key_is_read_from_SUNO_API_KEY_only env_file env c env' :
  Config._load_config env_file env = (inr c, env') ->
  let key :=
    match Config.assigned (lit "SUNO_API_KEY")
            (match env_file with Some lines => lines | None => [] end) with
    | Some value => value
    | None => match env !! lit "SUNO_API_KEY" with
              | Some value => value
              | None => []
              end
    end in
  API_KEY (module_config c) = key
  /\ (key = [] ->
      forall E uni_isalnum fuel prompt ttl tgs inst max_wait interval w,
        generate_music_from_prompt_en E (module_config c) uni_isalnum fuel
          prompt ttl tgs inst max_wait interval w
        = (Raised (SunoClientError missing_key_msg), w))
  /\ (key <> [] -> forall w, _ensure_api_key (module_config c) w = (Done tt, w)).
Proof.
  intros Hl key. pose proof (load_config_key _ _ _ _ Hl) as Hk. fold key in Hk.
  split; [exact Hk|]. split.
  - intros Hnil E uni fuel prompt ttl tgs inst mw iv w.
    apply facade_no_key. rewrite Hk. exact Hnil.
  - intros Hne w. unfold _ensure_api_key. rewrite Hk.
    destruct key; [contradiction|reflexivity].
Qed.

(** X15. When [ensure_configured] returns [True] the [.env] file exists,
    both required keys are non-empty and nothing was printed; the key check
    of [suno_client] then passes, and no call of
    [generate_music_from_prompt_en] fails with the configuration error. *)
Theorem configured_agent_never_lacks_the_key
    c env_file_exists writable resolved :
  fst (Config.ensure_configured c env_file_exists writable resolved) = inr true ->
  env_file_exists = true
  /\ Config.ZAI_API_KEY c <> [] /\ Config.SUNO_API_KEY c <> []
  /\ snd (Config.ensure_configured c env_file_exists writable resolved) = []
  /\ (forall w, _ensure_api_key (module_config c) w = (Done tt, w))
  /\ (forall E uni_isalnum fuel prompt ttl tgs inst max_wait interval w e,
         fst (generate_music_from_prompt_en E (module_config c) uni_isalnum
                fuel prompt ttl tgs inst max_wait interval w) = Raised e ->
         is_configuration_error e = false).
Proof.
  unfold Config.ensure_configured, Config._create_env_file.
  destruct env_file_exists; cbn [negb].
  2: { destruct writable; discriminate. }
  destruct (Config.ZAI_API_KEY c) as [|z zs] eqn:Hz;
    destruct (Config.SUNO_API_KEY c) as [|s ss] eqn:Hs; try discriminate.
  intros _. split; [reflexivity|]. split; [discriminate|].
  split; [discriminate|]. split; [reflexivity|].
  assert (Hk : API_KEY (module_config c) <> []).
  { cbn [module_config API_KEY]. unfold Config.get_suno_api_key.
    rewrite Hs. discriminate. }
  split.
  - intros w. unfold _ensure_api_key.
    destruct (API_KEY (module_config c)); [contradiction|reflexivity].
  - intros E uni fuel prompt ttl tgs inst mw iv w e Hr.
    exact (facade_not_config _ _ _ _ _ _ _ _ _ _ _ _ Hk Hr).
Qed.

End settings_claims.

Lemma api_key_is_read_from_SUNO_API_KEY_only_witness :
  match fst (Config._load_config
               (Some [lit "AIMUSIC_API_KEY=sk-live"])
               (<[lit "AIMUSIC_KEY" := lit "sk-live"]> ∅)) with
  | inr c =>
      generate_music_from_prompt_en (Scenario.env_of [inr Scenario.created] 0)
        (module_config c) Scenario.ascii_only 10 (lit "fast, cute")
        Scenario.default_title None false 360 15 Scenario.w0
      = (Raised (SunoClientError missing_key_msg), Scenario.w0)
  | inl _ => False
  end.
Proof.
  destruct (Config._load_config _ _) as [[e|c] env'] eqn:Hl; cbn [fst].
  - pose proof (f_equal fst Hl) as Hf. vm_compute in Hf. discriminate Hf.
  - refine (proj1 (proj2 (api_key_is_read_from_SUNO_API_KEY_only _ _ _ _ Hl))
              _ _ _ _ _ _ _ _ _ _ _).
    vm_compute. reflexivity.
Defined.

Lemma configured_agent_never_lacks_the_key_witness :
  _ensure_api_key
    (module_config
       {| Config.ZAI_API_KEY := lit "zk"; Config.SUNO_API_KEY := lit "sk";
          Config.HF_TOKEN := []; Config.AIMUSIC_BASE_URL := lit "https://api.sunoapi.com";
          Config.FFMPEG_PATH := lit "ffmpeg" |}) Scenario.w0
  = (Done tt, Scenario.w0).
Proof.
  refine (proj1 (proj2 (proj2 (proj2 (proj2
            (configured_agent_never_lacks_the_key _ true true (lit "/app/.env") _)))))
            Scenario.w0).
  reflexivity.
Defined.
